(** * The exporter's discovery-to-declaration pipeline

    A shallow embedding of the exporter context ([importContext]) of the
    Terraform provider: resource naming, the identity tracker behind
    [Emit] and [Add], the reference resolver ([Find],
    [getTraversalTokens], [reference]), the generic attribute projection
    ([dataToHcl]), the per-file writer ([handleResourceWrite]) and the
    phase sequence of [Run].

    Go strings are byte strings and are modelled by [string] (a list of
    8-bit characters); Go maps by [gmap]; slices by [list]; pointers that
    may be nil by [option].  Logging is left out everywhere: it has no
    effect on the state the properties talk about. *)

From Stdlib Require Import ZArith List Ascii String Lia Bool Permutation Sorted DecimalString.
From stdpp Require Import gmap strings list sorting.

Set Warnings "-register-all,-clear-no-such-hyp".

Open Scope string_scope.
(** [++] is on lists and [+:+] on strings. *)
Open Scope list_scope.

(** ** Go strings *)

Module GoStrings.

Definition dquote : ascii := "034"%char.
Definition backslash : ascii := "092"%char.

Definition str1 (c : ascii) : string := String c EmptyString.

Definition is_empty (s : string) : bool :=
  match s with EmptyString => true | _ => false end.

(** [s[n:]] for [n <= len(s)]. *)
Fixpoint str_drop (n : nat) (s : string) : string :=
  match n, s with
  | O, _ => s
  | S n', String _ s' => str_drop n' s'
  | S _, EmptyString => EmptyString
  end.

(** [s[:n]] for [n <= len(s)]. *)
Fixpoint str_take (n : nat) (s : string) : string :=
  match n, s with
  | O, _ => EmptyString
  | S n', String c s' => String c (str_take n' s')
  | S _, EmptyString => EmptyString
  end.

(** [s[lo:hi]] for [lo <= hi <= len(s)]. *)
Definition str_slice (lo hi : nat) (s : string) : string :=
  str_take (hi - lo) (str_drop lo s).

(** [strings.HasPrefix(s, p)]. *)
Fixpoint HasPrefix (s p : string) {struct p} : bool :=
  match p, s with
  | EmptyString, _ => true
  | String c p', String d s' => if Ascii.eqb c d then HasPrefix s' p' else false
  | String _ _, EmptyString => false
  end.

Definition in_range (lo hi : N) (c : ascii) : bool :=
  let n := N_of_ascii c in (N.leb lo n) && (N.leb n hi).

Definition is_upper : ascii -> bool := in_range 65 90.
Definition is_lower : ascii -> bool := in_range 97 122.
Definition is_digit : ascii -> bool := in_range 48 57.

Definition lower_ascii (c : ascii) : ascii :=
  if is_upper c then ascii_of_N (N_of_ascii c + 32) else c.

(** [strings.ToLower] on the ASCII letters; bytes outside [A-Z] are kept.
    (Go also lower-cases letters outside ASCII; every name the
    properties below evaluate is ASCII.) *)
Fixpoint ToLower (s : string) : string :=
  match s with
  | EmptyString => EmptyString
  | String c s' => String (lower_ascii c) (ToLower s')
  end.

(** [strings.Join(elems, sep)]. *)
Fixpoint Join (elems : list string) (sep : string) : string :=
  match elems with
  | [] => EmptyString
  | [x] => x
  | x :: rest => x +:+ sep +:+ Join rest sep
  end.

(** [strings.ReplaceAll(s, old, new)] for a one-byte [old]. *)
Fixpoint ReplaceAll1 (s : string) (old : ascii) (new : string) : string :=
  match s with
  | EmptyString => EmptyString
  | String c s' =>
      (if Ascii.eqb c old then new else str1 c) +:+ ReplaceAll1 s' old new
  end.

End GoStrings.
Export GoStrings.

(** ** crypto/md5

    [md5.Sum] over the bytes of a string, with 32-bit words as [Z] and the
    wrap-around written out. *)

Module MD5.

Definition w32 (x : Z) : Z := Z.land x 4294967295.
Definition add32 (x y : Z) : Z := w32 (x + y).
Definition not32 (x : Z) : Z := Z.lxor (w32 x) 4294967295.
Definition rotl32 (x : Z) (n : Z) : Z :=
  w32 (Z.lor (Z.shiftl x n) (Z.shiftr (w32 x) (32 - n))).

Definition K : list Z :=
  [ 3614090360; 3905402710; 606105819; 3250441966;
    4118548399; 1200080426; 2821735955; 4249261313;
    1770035416; 2336552879; 4294925233; 2304563134;
    1804603682; 4254626195; 2792965006; 1236535329;
    4129170786; 3225465664; 643717713; 3921069994;
    3593408605; 38016083; 3634488961; 3889429448;
    568446438; 3275163606; 4107603335; 1163531501;
    2850285829; 4243563512; 1735328473; 2368359562;
    4294588738; 2272392833; 1839030562; 4259657740;
    2763975236; 1272893353; 4139469664; 3200236656;
    681279174; 3936430074; 3572445317; 76029189;
    3654602809; 3873151461; 530742520; 3299628645;
    4096336452; 1126891415; 2878612391; 4237533241;
    1700485571; 2399980690; 4293915773; 2240044497;
    1873313359; 4264355552; 2734768916; 1309151649;
    4149444226; 3174756917; 718787259; 3951481745 ]%Z.

Definition shifts : list Z :=
  [ 7; 12; 17; 22; 7; 12; 17; 22; 7; 12; 17; 22; 7; 12; 17; 22;
    5; 9; 14; 20; 5; 9; 14; 20; 5; 9; 14; 20; 5; 9; 14; 20;
    4; 11; 16; 23; 4; 11; 16; 23; 4; 11; 16; 23; 4; 11; 16; 23;
    6; 10; 15; 21; 6; 10; 15; 21; 6; 10; 15; 21; 6; 10; 15; 21 ]%Z.

Definition bytes_of_string (s : string) : list Z :=
  List.map (fun c => Z.of_N (N_of_ascii c)) (list_ascii_of_string s).

(** Little-endian bytes of the low [n] bytes of [x]. *)
Fixpoint le_bytes (n : nat) (x : Z) : list Z :=
  match n with
  | O => []
  | S n' => Z.land x 255 :: le_bytes n' (Z.shiftr x 8)
  end.

Fixpoint le_word (bs : list Z) : Z :=
  match bs with
  | [] => 0
  | b :: rest => (b + 256 * le_word rest)%Z
  end.

Definition pad (msg : list Z) : list Z :=
  let len := Z.of_nat (List.length msg) in
  let zeros := Z.to_nat ((55 - len) mod 64) in
  msg ++ [128%Z] ++ List.repeat 0%Z zeros ++ le_bytes 8 (8 * len).

(** The sixteen 32-bit words of one 64-byte block. *)
Fixpoint words (n : nat) (block : list Z) : list Z :=
  match n with
  | O => []
  | S n' => le_word (List.firstn 4 block) :: words n' (List.skipn 4 block)
  end.

Definition step (M : list Z) (i : nat) (st : Z * Z * Z * Z) : Z * Z * Z * Z :=
  let '(A, B, C, D) := st in
  let '(F, g) :=
    if (i <? 16)%nat then (Z.lor (Z.land B C) (Z.land (not32 B) D), i)
    else if (i <? 32)%nat then
      (Z.lor (Z.land D B) (Z.land (not32 D) C), ((5 * i + 1) mod 16)%nat)
    else if (i <? 48)%nat then
      (Z.lxor (Z.lxor B C) D, ((3 * i + 5) mod 16)%nat)
    else (Z.lxor C (Z.lor B (not32 D)), ((7 * i) mod 16)%nat) in
  let F := add32 (add32 (add32 F A) (List.nth i K 0%Z)) (List.nth g M 0%Z) in
  (D, add32 B (rotl32 F (List.nth i shifts 0%Z)), B, C).

Definition block (st : Z * Z * Z * Z) (bl : list Z) : Z * Z * Z * Z :=
  let M := words 16 bl in
  let '(a0, b0, c0, d0) := st in
  let '(A, B, C, D) := List.fold_left (fun s i => step M i s) (List.seq 0 64) st in
  (add32 a0 A, add32 b0 B, add32 c0 C, add32 d0 D).

Fixpoint blocks (n : nat) (st : Z * Z * Z * Z) (bs : list Z) : Z * Z * Z * Z :=
  match n with
  | O => st
  | S n' => blocks n' (block st (List.firstn 64 bs)) (List.skipn 64 bs)
  end.

(** [md5.Sum(data)]: the sixteen bytes of the digest. *)
Definition Sum (data : list Z) : list Z :=
  let p := pad data in
  let '(a, b, c, d) :=
    blocks (List.length p / 64) (1732584193, 4023233417, 2562383102, 271733878)%Z p in
  le_bytes 4 a ++ le_bytes 4 b ++ le_bytes 4 c ++ le_bytes 4 d.

Definition hex_digit (n : Z) : ascii :=
  if (n <? 10)%Z then ascii_of_N (Z.to_N (48 + n)) else ascii_of_N (Z.to_N (87 + n)).

(** The verb [%x] of [fmt] on a byte array: two lower-case digits a byte. *)
Fixpoint hex (bs : list Z) : string :=
  match bs with
  | [] => EmptyString
  | b :: rest => String (hex_digit (b / 16)) (String (hex_digit (b mod 16)) (hex rest))
  end.

End MD5.

(** ** regexp

    A compiled [*regexp.Regexp] is represented by its search function:
    [doExecute s pos] is the leftmost match in [s] that starts at or after
    byte [pos], as the flat list of byte offsets the Go library returns
    (whole match first, then one pair per capture group, [-1] for a group
    that took no part), and [[]] when there is no match.  The regular
    expressions that the exporter declares for references are values of
    this type; the ones written out in the source ([nameFixes],
    [dependsRe], the leading-digit test) are compiled from their syntax by
    [MustCompile] below. *)

Module Regex.

Record Regexp := { doExecute : string -> nat -> list Z }.

(** [re.FindStringSubmatchIndex(s)]. *)
Definition FindStringSubmatchIndex (re : Regexp) (s : string) : list Z :=
  doExecute re s 0.

Fixpoint submatches (s : string) (a : list Z) : list string :=
  match a with
  | lo :: hi :: rest =>
      (if (0 <=? lo)%Z then str_slice (Z.to_nat lo) (Z.to_nat hi) s else EmptyString)
        :: submatches s rest
  | _ => []
  end.

(** [re.FindStringSubmatch(s)]: the text of the match and of each group. *)
Definition FindStringSubmatch (re : Regexp) (s : string) : list string :=
  submatches s (doExecute re s 0).

(** [re.MatchString(s)]. *)
Definition MatchString (re : Regexp) (s : string) : bool :=
  match doExecute re s 0 with [] => false | _ => true end.

(** The loop of [replaceAll] in the Go library, for a replacement text
    without [$]: copy what lies before each match, then the replacement
    (but not for an empty match right after another match), and advance
    by at least one byte. *)
Fixpoint replaceAll (fuel : nat) (re : Regexp) (src repl : string)
    (lastMatchEnd searchPos : nat) (buf : string) : string :=
  match fuel with
  | O => buf +:+ str_drop lastMatchEnd src
  | S fuel' =>
      if (String.length src <? searchPos)%nat then buf +:+ str_drop lastMatchEnd src
      else
        match doExecute re src searchPos with
        | a0 :: a1 :: _ =>
            let a0 := Z.to_nat a0 in
            let a1 := Z.to_nat a1 in
            let buf := buf +:+ str_slice lastMatchEnd a0 src in
            let buf :=
              if (lastMatchEnd <? a1)%nat || (a0 =? 0)%nat then buf +:+ repl else buf in
            let width := if (searchPos <? String.length src)%nat then 1%nat else 0%nat in
            let searchPos' :=
              if (a1 <? searchPos + width)%nat then (searchPos + width)%nat
              else if (a1 <? searchPos + 1)%nat then (searchPos + 1)%nat
              else a1 in
            replaceAll fuel' re src repl a1 searchPos' buf
        | _ => buf +:+ str_drop lastMatchEnd src
        end
  end.

(** [re.ReplaceAllString(src, repl)]. *)
Definition ReplaceAllString (re : Regexp) (src repl : string) : string :=
  replaceAll (S (S (String.length src))) re src repl 0 0 EmptyString.

(** The syntax of the patterns that occur in the source: a sequence of
    character classes, each with a greedy counted repetition, with the
    [^] anchor and capture-group parentheses. *)
Inductive item :=
| BeginText
| Class (p : ascii -> bool) (min : nat) (max : option nat)
| GroupOpen
| GroupClose.

Definition One (p : ascii -> bool) : item := Class p 1 (Some 1%nat).
Definition Times (p : ascii -> bool) (n : nat) : item := Class p n (Some n).
Definition AtLeast (p : ascii -> bool) (n : nat) : item := Class p n None.

Fixpoint count_leading (p : ascii -> bool) (bound : option nat) (rest : list ascii) : nat :=
  match bound, rest with
  | Some O, _ => O
  | _, [] => O
  | _, c :: rest' =>
      if p c then S (count_leading p (Nat.pred <$> bound) rest') else O
  end.

(** Try the counts [n], [n-1], ..., [mn]: the longest repetition first. *)
Fixpoint try_down {X} (f : nat -> option X) (n mn : nat) : option X :=
  if (n <? mn)%nat then None
  else match f n with
       | Some r => Some r
       | None => match n with O => None | S n' => try_down f n' mn end
       end.

Fixpoint match_here (items : list item) (rest : list ascii) (pos : nat) (caps : list Z)
    : option (nat * list Z) :=
  match items with
  | [] => Some (pos, caps)
  | BeginText :: k => if (pos =? 0)%nat then match_here k rest pos caps else None
  | GroupOpen :: k => match_here k rest pos (caps ++ [Z.of_nat pos])
  | GroupClose :: k => match_here k rest pos (caps ++ [Z.of_nat pos])
  | Class p mn mx :: k =>
      try_down
        (fun c => match_here k (List.skipn c rest) (pos + c) caps)
        (count_leading p mx rest) mn
  end.

Fixpoint search (items : list item) (rest : list ascii) (start : nat) : list Z :=
  match match_here items rest start [] with
  | Some (e, caps) => Z.of_nat start :: Z.of_nat e :: caps
  | None =>
      match rest with
      | [] => []
      | _ :: rest' => search items rest' (S start)
      end
  end.

(** [regexp.MustCompile] for a pattern given by its syntax.  Matching is
    by byte; the classes of the source are sets of ASCII characters or
    complements of such sets under [+], for which the spans matched are
    the same as by rune. *)
Definition MustCompile (items : list item) : Regexp :=
  {| doExecute := fun s pos =>
       if (String.length s <? pos)%nat then []
       else search items (List.skipn pos (list_ascii_of_string s)) pos |}.

(** Character classes. *)
Definition is_char (a : ascii) : ascii -> bool := fun c => Ascii.eqb c a.
Definition class_hex_lower (c : ascii) : bool := is_digit c || in_range 97 102 c.
Definition class_sep (c : ascii) : bool := is_char "_" c || is_char "-" c.
(** [\s]: tab, newline, form feed, carriage return, space. *)
Definition class_space (c : ascii) : bool :=
  let n := N_of_ascii c in
  N.eqb n 9 || N.eqb n 10 || N.eqb n 12 || N.eqb n 13 || N.eqb n 32.
(** [\w]: [0-9A-Za-z_]. *)
Definition class_word (c : ascii) : bool :=
  is_digit c || is_upper c || is_lower c || is_char "_" c.
Definition class_nonword (c : ascii) : bool := negb (class_word c).
(** [[-\s\.\|]]. *)
Definition class_dash_space_dot_bar (c : ascii) : bool :=
  is_char "-" c || class_space c || is_char "." c || is_char "|" c.

End Regex.
Export Regex.

(** ** HCL tokens and traversals (hclwrite, hclsyntax, hcl, cty) *)

Module Hcl.

Inductive TokenType :=
| TokenOQuote | TokenCQuote | TokenQuotedLit | TokenIdent | TokenDot
| TokenOBrack | TokenCBrack | TokenComma
| TokenNumberLit | TokenOBrace | TokenCBrace | TokenEqual | TokenNewline.

Record Token := { tok_Type : TokenType; tok_Bytes : string }.
Definition Tokens := list Token.

Inductive Traverser :=
| TraverseRoot (Name : string)
| TraverseAttr (Name : string).
Definition Traversal := list Traverser.

(** [hclwrite.TokensForTraversal]: an identifier for the root, a dot and
    an identifier for each attribute step. *)
Definition TokensForTraversal (t : Traversal) : Tokens :=
  List.flat_map (fun step =>
    match step with
    | TraverseRoot n => [ {| tok_Type := TokenIdent; tok_Bytes := n |} ]
    | TraverseAttr n => [ {| tok_Type := TokenDot; tok_Bytes := "." |};
                          {| tok_Type := TokenIdent; tok_Bytes := n |} ]
    end) t.

(** The [cty] values the exporter builds; a float is carried as its bits. *)
Inductive ctyValue :=
| StringVal (s : string)
| BoolVal (b : bool)
| NumberIntVal (n : Z)
| NumberFloatVal (bits : Z)
| ObjectVal (attrs : list (string * string)).

End Hcl.
Export Hcl.

(** ** Data model *)

(** [any]: what [ResourceData.GetOk] hands back.  A set carries, for each
    element, the hash code its [F] gives. *)
Inductive rawValue :=
| RNil
| RString (s : string)
| RBool (b : bool)
| RInt (n : Z)
| RFloat (bits : Z)
| RMap (m : list (string * string))
| RSet (elems : list (rawValue * Z))
| RList (elems : list rawValue)
| ROther.

(** [terraform.InstanceState]. *)
Record InstanceState := { Attributes : gmap string string }.

(** [schema.ResourceData], the live data handle: its state, which may be
    nil, and its field reader. *)
Record ResourceData := {
  rd_State : option InstanceState;
  rd_GetOk : string -> rawValue * bool
}.

Record resource := {
  Resource : string;
  ID : string;
  Attribute : string;
  Value : string;
  Name : string;
  Mode : string;
  Data : ResourceData
}.

Record instanceApproximation := { inst_Attributes : gmap string string }.

Record resourceApproximation := {
  sr_Mode : string;
  sr_Module : string;
  sr_Type : string;
  sr_Name : string;
  sr_Instances : list instanceApproximation
}.

(** Modelled from the spec: the State Approximation is the append-only
    sequence of the resource approximations added so far, in the order of
    their addition; [State_Append] adds one at the end and
    [State_Resources] gives those of one kind, in that order, for the
    linear scan.  (The declaration of [stateApproximation] is not part of
    the text embedded here.) *)
Definition stateApproximation := list resourceApproximation.

Definition State_Append (s : stateApproximation) (ra : resourceApproximation)
    : stateApproximation := (s ++ [ra])%list.

Definition State_Resources (s : stateApproximation) (kind : string)
    : list resourceApproximation :=
  List.filter (fun sr => String.eqb (sr_Type sr) kind) s.

Inductive MatchType :=
| MatchDefault | MatchExact | MatchPrefix | MatchCaseInsensitive | MatchRegexp
| MatchOther (s : string).

Record reference := {
  ref_Path : string;
  ref_Resource : string;
  ref_Match : string;
  ref_MatchType : MatchType;
  ref_Regexp : option Regexp;
  ref_File : bool;
  ref_Variable : bool
}.

Record regexFix := { Regex : Regexp; Replacement : string }.

Inductive ValueType :=
| TypeBool | TypeInt | TypeFloat | TypeString | TypeList | TypeMap | TypeSet
| TypeInvalid.

(** [schema.Schema] and [schema.Resource]: a field descriptor, whose
    element is a nested resource (its schema map), a scalar schema or
    nothing. *)
Inductive Schema :=
| mkSchema (ty : ValueType) (required : bool) (default : option rawValue)
           (maxItems : Z) (elem : Elem)
with Elem :=
| ElemNone
| ElemResource (fields : gmap string Schema)
| ElemSchema (s : Schema).

Definition s_Type (s : Schema) := let 'mkSchema t _ _ _ _ := s in t.
Definition s_Required (s : Schema) := let 'mkSchema _ r _ _ _ := s in r.
Definition s_Default (s : Schema) := let 'mkSchema _ _ d _ _ := s in d.
Definition s_MaxItems (s : Schema) := let 'mkSchema _ _ _ m _ := s in m.
Definition s_Elem (s : Schema) := let 'mkSchema _ _ _ _ e := s in e.

Record SchemaResource := {
  res_Schema : gmap string Schema;
  res_Importer : bool
}.

(** [importable]: what a resource kind's collaborator declares.  The
    callbacks are closed over the context they are handed in Go. *)
Record importable := {
  Service : string;
  imp_Name : option (ResourceData -> string);
  imp_List : bool;
  Ignore : option (resource -> bool);
  Depends : list reference;
  AccountLevel : bool;
  WorkspaceLevel : bool;
  ShouldOmitField : option (string -> Schema -> ResourceData -> bool)
}.

(** The fields of [importContext] that the embedded functions read or
    write.  [waitGroup] is the counter of the wait group; a channel is the
    queue of what was sent and not yet received; [testEmits] is nil
    outside of tests. *)
Record importContext := {
  Module_ : string;
  Importables : gmap string importable;
  Resources : gmap string SchemaResource;
  Directory : string;
  nameFixes : list regexFix;
  hclFixes : list regexFix;
  variables : gmap string string;
  channels : gmap string (list resource);
  defaultChannel : list resource;
  State : stateApproximation;
  Scope : list resource;
  incremental : bool;
  services : gset string;
  listing : string;
  generateDeclaration : bool;
  noFormat : bool;
  prefix : string;
  accountLevel : bool;
  shImports : gset string;
  notebooksFormat : string;
  updatedSinceStr : string;
  updatedSinceMs : Z;
  waitGroup : Z;
  testEmits : option (gmap string bool);
  importing : gmap string bool
}.

(** The functions of the exporter package and of the HCL library that the
    embedded code calls and whose text is not embedded: the identity of a
    resource, the effective match policy and attribute of a reference,
    the direct lookups of the State Approximation, the default omission
    rule, the less aggressive name normalisation and the rendering of a
    literal value.  Every result below holds for all of them. *)
Class Env := {
  MatchPair : resource -> string * string;
  resource_String : resource -> string;
  MatchAttribute : reference -> string;
  MatchTypeValue : reference -> MatchType;
  State_Has : stateApproximation -> resource -> bool;
  State_Get : stateApproximation -> string -> string -> string -> option resourceApproximation;
  defaultShouldOmitFieldFunc : importContext -> string -> Schema -> ResourceData -> bool;
  simpleNameFixes : list regexFix;
  TokensForValue : ctyValue -> Tokens
}.

(** Assignment to one field of the context. *)
Definition set_variables (v : gmap string string) (ic : importContext) : importContext :=
  {| Module_ := Module_ ic; Importables := Importables ic;
     Resources := Resources ic; Directory := Directory ic;
     nameFixes := nameFixes ic; hclFixes := hclFixes ic; variables := v;
     channels := channels ic; defaultChannel := defaultChannel ic;
     State := State ic; Scope := Scope ic; incremental := incremental ic;
     services := services ic; listing := listing ic;
     generateDeclaration := generateDeclaration ic; noFormat := noFormat ic;
     prefix := prefix ic; accountLevel := accountLevel ic;
     shImports := shImports ic; notebooksFormat := notebooksFormat ic;
     updatedSinceStr := updatedSinceStr ic;
     updatedSinceMs := updatedSinceMs ic; waitGroup := waitGroup ic;
     testEmits := testEmits ic; importing := importing ic |}.

Definition set_channels (v : gmap string (list resource)) (ic : importContext) : importContext :=
  {| Module_ := Module_ ic; Importables := Importables ic;
     Resources := Resources ic; Directory := Directory ic;
     nameFixes := nameFixes ic; hclFixes := hclFixes ic;
     variables := variables ic; channels := v;
     defaultChannel := defaultChannel ic; State := State ic;
     Scope := Scope ic; incremental := incremental ic;
     services := services ic; listing := listing ic;
     generateDeclaration := generateDeclaration ic; noFormat := noFormat ic;
     prefix := prefix ic; accountLevel := accountLevel ic;
     shImports := shImports ic; notebooksFormat := notebooksFormat ic;
     updatedSinceStr := updatedSinceStr ic;
     updatedSinceMs := updatedSinceMs ic; waitGroup := waitGroup ic;
     testEmits := testEmits ic; importing := importing ic |}.

Definition set_defaultChannel (v : list resource) (ic : importContext) : importContext :=
  {| Module_ := Module_ ic; Importables := Importables ic;
     Resources := Resources ic; Directory := Directory ic;
     nameFixes := nameFixes ic; hclFixes := hclFixes ic;
     variables := variables ic; channels := channels ic;
     defaultChannel := v; State := State ic; Scope := Scope ic;
     incremental := incremental ic; services := services ic;
     listing := listing ic; generateDeclaration := generateDeclaration ic;
     noFormat := noFormat ic; prefix := prefix ic;
     accountLevel := accountLevel ic; shImports := shImports ic;
     notebooksFormat := notebooksFormat ic;
     updatedSinceStr := updatedSinceStr ic;
     updatedSinceMs := updatedSinceMs ic; waitGroup := waitGroup ic;
     testEmits := testEmits ic; importing := importing ic |}.

Definition set_State (v : stateApproximation) (ic : importContext) : importContext :=
  {| Module_ := Module_ ic; Importables := Importables ic;
     Resources := Resources ic; Directory := Directory ic;
     nameFixes := nameFixes ic; hclFixes := hclFixes ic;
     variables := variables ic; channels := channels ic;
     defaultChannel := defaultChannel ic; State := v; Scope := Scope ic;
     incremental := incremental ic; services := services ic;
     listing := listing ic; generateDeclaration := generateDeclaration ic;
     noFormat := noFormat ic; prefix := prefix ic;
     accountLevel := accountLevel ic; shImports := shImports ic;
     notebooksFormat := notebooksFormat ic;
     updatedSinceStr := updatedSinceStr ic;
     updatedSinceMs := updatedSinceMs ic; waitGroup := waitGroup ic;
     testEmits := testEmits ic; importing := importing ic |}.

Definition set_Scope (v : list resource) (ic : importContext) : importContext :=
  {| Module_ := Module_ ic; Importables := Importables ic;
     Resources := Resources ic; Directory := Directory ic;
     nameFixes := nameFixes ic; hclFixes := hclFixes ic;
     variables := variables ic; channels := channels ic;
     defaultChannel := defaultChannel ic; State := State ic; Scope := v;
     incremental := incremental ic; services := services ic;
     listing := listing ic; generateDeclaration := generateDeclaration ic;
     noFormat := noFormat ic; prefix := prefix ic;
     accountLevel := accountLevel ic; shImports := shImports ic;
     notebooksFormat := notebooksFormat ic;
     updatedSinceStr := updatedSinceStr ic;
     updatedSinceMs := updatedSinceMs ic; waitGroup := waitGroup ic;
     testEmits := testEmits ic; importing := importing ic |}.

Definition set_shImports (v : gset string) (ic : importContext) : importContext :=
  {| Module_ := Module_ ic; Importables := Importables ic;
     Resources := Resources ic; Directory := Directory ic;
     nameFixes := nameFixes ic; hclFixes := hclFixes ic;
     variables := variables ic; channels := channels ic;
     defaultChannel := defaultChannel ic; State := State ic;
     Scope := Scope ic; incremental := incremental ic;
     services := services ic; listing := listing ic;
     generateDeclaration := generateDeclaration ic; noFormat := noFormat ic;
     prefix := prefix ic; accountLevel := accountLevel ic; shImports := v;
     notebooksFormat := notebooksFormat ic;
     updatedSinceStr := updatedSinceStr ic;
     updatedSinceMs := updatedSinceMs ic; waitGroup := waitGroup ic;
     testEmits := testEmits ic; importing := importing ic |}.

Definition set_notebooksFormat (v : string) (ic : importContext) : importContext :=
  {| Module_ := Module_ ic; Importables := Importables ic;
     Resources := Resources ic; Directory := Directory ic;
     nameFixes := nameFixes ic; hclFixes := hclFixes ic;
     variables := variables ic; channels := channels ic;
     defaultChannel := defaultChannel ic; State := State ic;
     Scope := Scope ic; incremental := incremental ic;
     services := services ic; listing := listing ic;
     generateDeclaration := generateDeclaration ic; noFormat := noFormat ic;
     prefix := prefix ic; accountLevel := accountLevel ic;
     shImports := shImports ic; notebooksFormat := v;
     updatedSinceStr := updatedSinceStr ic;
     updatedSinceMs := updatedSinceMs ic; waitGroup := waitGroup ic;
     testEmits := testEmits ic; importing := importing ic |}.

Definition set_updatedSinceStr (v : string) (ic : importContext) : importContext :=
  {| Module_ := Module_ ic; Importables := Importables ic;
     Resources := Resources ic; Directory := Directory ic;
     nameFixes := nameFixes ic; hclFixes := hclFixes ic;
     variables := variables ic; channels := channels ic;
     defaultChannel := defaultChannel ic; State := State ic;
     Scope := Scope ic; incremental := incremental ic;
     services := services ic; listing := listing ic;
     generateDeclaration := generateDeclaration ic; noFormat := noFormat ic;
     prefix := prefix ic; accountLevel := accountLevel ic;
     shImports := shImports ic; notebooksFormat := notebooksFormat ic;
     updatedSinceStr := v; updatedSinceMs := updatedSinceMs ic;
     waitGroup := waitGroup ic; testEmits := testEmits ic;
     importing := importing ic |}.

Definition set_updatedSinceMs (v : Z) (ic : importContext) : importContext :=
  {| Module_ := Module_ ic; Importables := Importables ic;
     Resources := Resources ic; Directory := Directory ic;
     nameFixes := nameFixes ic; hclFixes := hclFixes ic;
     variables := variables ic; channels := channels ic;
     defaultChannel := defaultChannel ic; State := State ic;
     Scope := Scope ic; incremental := incremental ic;
     services := services ic; listing := listing ic;
     generateDeclaration := generateDeclaration ic; noFormat := noFormat ic;
     prefix := prefix ic; accountLevel := accountLevel ic;
     shImports := shImports ic; notebooksFormat := notebooksFormat ic;
     updatedSinceStr := updatedSinceStr ic; updatedSinceMs := v;
     waitGroup := waitGroup ic; testEmits := testEmits ic;
     importing := importing ic |}.

Definition set_waitGroup (v : Z) (ic : importContext) : importContext :=
  {| Module_ := Module_ ic; Importables := Importables ic;
     Resources := Resources ic; Directory := Directory ic;
     nameFixes := nameFixes ic; hclFixes := hclFixes ic;
     variables := variables ic; channels := channels ic;
     defaultChannel := defaultChannel ic; State := State ic;
     Scope := Scope ic; incremental := incremental ic;
     services := services ic; listing := listing ic;
     generateDeclaration := generateDeclaration ic; noFormat := noFormat ic;
     prefix := prefix ic; accountLevel := accountLevel ic;
     shImports := shImports ic; notebooksFormat := notebooksFormat ic;
     updatedSinceStr := updatedSinceStr ic;
     updatedSinceMs := updatedSinceMs ic; waitGroup := v;
     testEmits := testEmits ic; importing := importing ic |}.

Definition set_testEmits (v : option (gmap string bool)) (ic : importContext) : importContext :=
  {| Module_ := Module_ ic; Importables := Importables ic;
     Resources := Resources ic; Directory := Directory ic;
     nameFixes := nameFixes ic; hclFixes := hclFixes ic;
     variables := variables ic; channels := channels ic;
     defaultChannel := defaultChannel ic; State := State ic;
     Scope := Scope ic; incremental := incremental ic;
     services := services ic; listing := listing ic;
     generateDeclaration := generateDeclaration ic; noFormat := noFormat ic;
     prefix := prefix ic; accountLevel := accountLevel ic;
     shImports := shImports ic; notebooksFormat := notebooksFormat ic;
     updatedSinceStr := updatedSinceStr ic;
     updatedSinceMs := updatedSinceMs ic; waitGroup := waitGroup ic;
     testEmits := v; importing := importing ic |}.

Definition set_importing (v : gmap string bool) (ic : importContext) : importContext :=
  {| Module_ := Module_ ic; Importables := Importables ic;
     Resources := Resources ic; Directory := Directory ic;
     nameFixes := nameFixes ic; hclFixes := hclFixes ic;
     variables := variables ic; channels := channels ic;
     defaultChannel := defaultChannel ic; State := State ic;
     Scope := Scope ic; incremental := incremental ic;
     services := services ic; listing := listing ic;
     generateDeclaration := generateDeclaration ic; noFormat := noFormat ic;
     prefix := prefix ic; accountLevel := accountLevel ic;
     shImports := shImports ic; notebooksFormat := notebooksFormat ic;
     updatedSinceStr := updatedSinceStr ic;
     updatedSinceMs := updatedSinceMs ic; waitGroup := waitGroup ic;
     testEmits := testEmits ic; importing := v |}.

Definition set_accountLevel (v : bool) (ic : importContext) : importContext :=
  {| Module_ := Module_ ic; Importables := Importables ic;
     Resources := Resources ic; Directory := Directory ic;
     nameFixes := nameFixes ic; hclFixes := hclFixes ic;
     variables := variables ic; channels := channels ic;
     defaultChannel := defaultChannel ic; State := State ic;
     Scope := Scope ic; incremental := incremental ic;
     services := services ic; listing := listing ic;
     generateDeclaration := generateDeclaration ic; noFormat := noFormat ic;
     prefix := prefix ic; accountLevel := v; shImports := shImports ic;
     notebooksFormat := notebooksFormat ic;
     updatedSinceStr := updatedSinceStr ic;
     updatedSinceMs := updatedSinceMs ic; waitGroup := waitGroup ic;
     testEmits := testEmits ic; importing := importing ic |}.

Definition set_services (v : gset string) (ic : importContext) : importContext :=
  {| Module_ := Module_ ic; Importables := Importables ic;
     Resources := Resources ic; Directory := Directory ic;
     nameFixes := nameFixes ic; hclFixes := hclFixes ic;
     variables := variables ic; channels := channels ic;
     defaultChannel := defaultChannel ic; State := State ic;
     Scope := Scope ic; incremental := incremental ic; services := v;
     listing := listing ic; generateDeclaration := generateDeclaration ic;
     noFormat := noFormat ic; prefix := prefix ic;
     accountLevel := accountLevel ic; shImports := shImports ic;
     notebooksFormat := notebooksFormat ic;
     updatedSinceStr := updatedSinceStr ic;
     updatedSinceMs := updatedSinceMs ic; waitGroup := waitGroup ic;
     testEmits := testEmits ic; importing := importing ic |}.

Definition set_incremental (v : bool) (ic : importContext) : importContext :=
  {| Module_ := Module_ ic; Importables := Importables ic;
     Resources := Resources ic; Directory := Directory ic;
     nameFixes := nameFixes ic; hclFixes := hclFixes ic;
     variables := variables ic; channels := channels ic;
     defaultChannel := defaultChannel ic; State := State ic;
     Scope := Scope ic; incremental := v; services := services ic;
     listing := listing ic; generateDeclaration := generateDeclaration ic;
     noFormat := noFormat ic; prefix := prefix ic;
     accountLevel := accountLevel ic; shImports := shImports ic;
     notebooksFormat := notebooksFormat ic;
     updatedSinceStr := updatedSinceStr ic;
     updatedSinceMs := updatedSinceMs ic; waitGroup := waitGroup ic;
     testEmits := testEmits ic; importing := importing ic |}.

(** ** The identity tracker: [Has], [Add] and [Emit] *)

Section Tracker.
Context `{Env}.

Definition isServiceEnabled (ic : importContext) (service : string) : bool :=
  bool_decide (service ∈ services ic).

(** The flag recorded for an identity, and whether one is recorded. *)
Definition isImporting (ic : importContext) (s : string) : bool * bool :=
  match importing ic !! s with
  | Some v => (v, true)
  | None => (false, false)
  end.

(** Whether the resource exists; with [onlyAdded] only if it was added
    with [Add]. *)
Definition HasInState (ic : importContext) (r : resource) (onlyAdded : bool) : bool :=
  let '(v, visiting) := isImporting ic (resource_String r) in
  if visiting && (v || negb onlyAdded) then true
  else State_Has (State ic) r.

(** Whether the resource exists in any state: added, or being added. *)
Definition Has (ic : importContext) (r : resource) : bool :=
  HasInState ic r false.

Definition setImportingState (ic : importContext) (s : string) (state : bool)
    : importContext :=
  set_importing (<[s := state]> (importing ic)) ic.

Definition with_Mode (r : resource) (m : string) : resource :=
  {| Resource := Resource r; ID := ID r; Attribute := Attribute r; Value := Value r;
     Name := Name r; Mode := m; Data := Data r |}.

(** [Add]: the guard, the mark, then the state of the data handle; only
    with a state at hand is an approximation appended, and the resource
    (its empty mode set to managed) put in scope. *)
Definition Add (ic : importContext) (r : resource) : importContext :=
  if HasInState ic r true then ic
  else
    let ic := setImportingState ic (resource_String r) true in
    match rd_State (Data r) with
    | None => ic
    | Some state =>
        let r := if is_empty (Mode r) then with_Mode r "managed" else r in
        let inst := {| inst_Attributes := <["id" := ID r]> (Attributes state) |} in
        let ic :=
          set_State
            (State_Append (State ic)
               {| sr_Mode := Mode r; sr_Module := Module_ ic; sr_Type := Resource r;
                  sr_Name := Name r; sr_Instances := [inst] |}) ic in
        set_Scope (Scope ic ++ [r]) ic
    end.

(** [Emit]: the checks in the order of the source; a send on a channel
    appends to its queue after the wait-group counter went up by one. *)
Definition Emit (ic : importContext) (r : resource) : importContext :=
  let '(_, v) := MatchPair r in
  if is_empty v then ic
  else
    match Importables ic !! Resource r with
    | None => ic
    | Some ir =>
        if negb (isServiceEnabled ic (Service ir)) then ic
        else if Has ic r then ic
        else
          match testEmits ic with
          | Some te => set_testEmits (Some (<[resource_String r := true]> te)) ic
          | None =>
              let ic := setImportingState ic (resource_String r) false in
              match Resources ic !! Resource r with
              | None => ic
              | Some _ =>
                  if accountLevel ic && negb (AccountLevel ir) then ic
                  else
                    match channels ic !! Resource r with
                    | Some ch =>
                        let ic := set_waitGroup (waitGroup ic + 1)%Z ic in
                        set_channels (<[Resource r := ch ++ [r]]> (channels ic)) ic
                    | None =>
                        let ic := set_waitGroup (waitGroup ic + 1)%Z ic in
                        set_defaultChannel (defaultChannel ic ++ [r]) ic
                    end
              end
          end
    end.

End Tracker.

(** ** Naming: [ResourceName] *)

(** The package-level [nameFixes]: drop a leading-UUID-like run with its
    separator, turn dashes, white space, dots and bars into underscores,
    then every run of non-word characters, then squeeze underscores. *)
Definition package_nameFixes : list regexFix :=
  [ {| Regex := MustCompile
         [ Times class_hex_lower 8; One class_sep;
           Times class_hex_lower 4; One class_sep;
           Times class_hex_lower 4; One class_sep;
           Times class_hex_lower 4; One class_sep;
           Times class_hex_lower 12; One class_sep ];
       Replacement := EmptyString |};
    {| Regex := MustCompile [ One class_dash_space_dot_bar ]; Replacement := "_" |};
    {| Regex := MustCompile [ AtLeast class_nonword 1 ]; Replacement := "_" |};
    {| Regex := MustCompile [ AtLeast (is_char "_") 2 ]; Replacement := "_" |} ].

(** The pattern of the leading-digit test in [ResourceName]. *)
Definition leadingDigitRe : Regexp := MustCompile [ BeginText; One is_digit ].

(** The method [regexFix]: apply the fixes one after the other. *)
Definition ic_regexFix (s : string) (fixes : list regexFix) : string :=
  List.fold_left (fun s x => ReplaceAllString (Regex x) s (Replacement x)) fixes s.

(** [fmt.Sprintf("r%x", md5.Sum([]byte(s)))]. *)
Definition Sprintf_r_hex_md5 (s : string) : string :=
  "r" +:+ MD5.hex (MD5.Sum (MD5.bytes_of_string s)).

Definition ResourceName (ic : importContext) (r : resource) : string :=
  let name := Name r in
  let name :=
    if is_empty name then
      match Importables ic !! Resource r with
      | Some {| imp_Name := Some f |} => f (Data r)
      | _ => name
      end
    else name in
  let name := if is_empty name then ID r else name in
  let name := prefix ic +:+ name in
  let origCaseName := name in
  let name := ToLower name in
  let name := ic_regexFix name (nameFixes ic) in
  if MatchString leadingDigitRe name || is_empty name then
    let origCaseName := if is_empty name then ID r else origCaseName in
    str_slice 0 12 (Sprintf_r_hex_md5 origCaseName)
  else name.

(** Names for the intermediate values of [ResourceName]: the name before
    the prefix is put in front, and the name after lower-casing and the
    fixes. *)
Definition rawName (ic : importContext) (r : resource) : string :=
  let name := Name r in
  let name :=
    if is_empty name then
      match Importables ic !! Resource r with
      | Some {| imp_Name := Some f |} => f (Data r)
      | _ => name
      end
    else name in
  if is_empty name then ID r else name.

Definition normalizedName (ic : importContext) (r : resource) : string :=
  ic_regexFix (ToLower (prefix ic +:+ rawName ic r)) (nameFixes ic).

(** ** The reference resolver *)

(** What a call comes to: a value, a Go [error], a run-time panic, or the
    end of the fuel that bounds the recursion of the model. *)
Inductive result (A : Type) :=
| Ok (a : A)
| Err (msg : string)
| Panic
| NoFuel.
Arguments Ok {A} a.
Arguments Err {A} msg.
Arguments Panic {A}.
Arguments NoFuel {A}.

#[global] Instance result_bind : MBind result := fun A B k m =>
  match m with
  | Ok a => k a
  | Err e => Err e
  | Panic => Panic
  | NoFuel => NoFuel
  end.

(** [s[lo:]] and [s[:hi]] with the bounds check of the language. *)
Definition slice_from (s : string) (lo : Z) : result string :=
  if (0 <=? lo)%Z && (lo <=? Z.of_nat (String.length s))%Z
  then Ok (str_drop (Z.to_nat lo) s) else Panic.

Definition slice_to (s : string) (hi : Z) : result string :=
  if (0 <=? hi)%Z && (hi <=? Z.of_nat (String.length s))%Z
  then Ok (str_take (Z.to_nat hi) s) else Panic.

Definition mkToken (t : TokenType) (b : string) : Token :=
  {| tok_Type := t; tok_Bytes := b |}.

Definition genTraversalTokens (sr : resourceApproximation) (pick : string) : Traversal :=
  if String.eqb (sr_Mode sr) "data" then
    [ TraverseRoot "data"; TraverseAttr (sr_Type sr); TraverseAttr (sr_Name sr);
      TraverseAttr pick ]
  else
    [ TraverseRoot (sr_Type sr); TraverseAttr (sr_Name sr); TraverseAttr pick ].

(** The inner loop of [Find] over the instances of one resource: the
    value of the first instance that matches. *)
Fixpoint scan_instances (mt : MatchType) (value matchValue attr : string)
    (insts : list instanceApproximation) : option string :=
  match insts with
  | [] => None
  | i :: rest =>
      match inst_Attributes i !! attr with
      | None => scan_instances mt value matchValue attr rest
      | Some strValue =>
          let matched :=
            match mt with
            | MatchCaseInsensitive => String.eqb (ToLower strValue) matchValue
            | MatchPrefix => HasPrefix value strValue
            | _ => false
            end in
          if matched then Some strValue
          else scan_instances mt value matchValue attr rest
      end
  end.

(** The outer loop of [Find] over the resources of the kind. *)
Fixpoint scan_resources (mt : MatchType) (value matchValue attr : string)
    (srs : list resourceApproximation) : option (string * resourceApproximation) :=
  match srs with
  | [] => None
  | sr :: rest =>
      match scan_instances mt value matchValue attr (sr_Instances sr) with
      | Some strValue => Some (strValue, sr)
      | None => scan_resources mt value matchValue attr rest
      end
  end.

Definition zeroData : ResourceData :=
  {| rd_State := None; rd_GetOk := fun _ => (RNil, false) |}.

Section Resolver.
Context `{Env}.

(** [Find]: the matched portion of the value and the traversal to the
    resource found, or the empty string and nil. *)
Definition Find (ic : importContext) (r : resource) (pick : string) (ref : reference)
    : string * option Traversal :=
  let notFound : string * option Traversal := (EmptyString, None) in
  let scan (matchValue : string) :=
    match scan_resources (ref_MatchType ref) (Value r) matchValue (Attribute r)
            (State_Resources (State ic) (Resource r)) with
    | Some (strValue, sr) => (strValue, Some (genTraversalTokens sr pick))
    | None => notFound
    end in
  let direct (matchValue : string) (thenScan : bool) :=
    match State_Get (State ic) (Resource r) (Attribute r) matchValue with
    | Some sr => (matchValue, Some (genTraversalTokens sr pick))
    | None => if thenScan then scan matchValue else notFound
    end in
  match ref_MatchType ref with
  | MatchRegexp =>
      match ref_Regexp ref with
      | None => notFound
      | Some re =>
          let res := FindStringSubmatch re (Value r) in
          if (length res <? 2)%nat then notFound
          else direct (List.nth 1 res EmptyString) false
      end
  | MatchCaseInsensitive => direct (ToLower (Value r)) true
  | MatchExact | MatchDefault => direct (Value r) false
  | _ => scan EmptyString
  end.

Definition maybeAddQuoteCharacter (s : string) : string :=
  let s := ReplaceAll1 s backslash (String backslash (str1 backslash)) in
  ReplaceAll1 s dquote (String backslash (str1 dquote)).

(** [getTraversalTokens]: nil when nothing is found, the traversal for
    the exact and case-insensitive policies, and a quoted template around
    the traversal for the prefix and regexp policies. *)
Definition getTraversalTokens (ic : importContext) (ref : reference) (value : string)
    : result (option Tokens) :=
  let matchType := MatchTypeValue ref in
  let attr := MatchAttribute ref in
  let '(attrValue, traversal) :=
    Find ic {| Resource := ref_Resource ref; ID := EmptyString; Attribute := attr;
               Value := value; Name := EmptyString; Mode := EmptyString;
               Data := zeroData |} attr ref in
  match traversal with
  | None => Ok None
  | Some traversal =>
      match matchType with
      | MatchExact | MatchDefault | MatchCaseInsensitive =>
          Ok (Some (TokensForTraversal traversal))
      | MatchPrefix =>
          rest ← slice_from value (Z.of_nat (String.length attrValue));
          Ok (Some
            ([ mkToken TokenOQuote (String dquote "${") ]
             ++ TokensForTraversal traversal
             ++ [ mkToken TokenCQuote "}";
                  mkToken TokenQuotedLit (maybeAddQuoteCharacter rest);
                  mkToken TokenCQuote (str1 dquote) ]))
      | MatchRegexp =>
          match ref_Regexp ref with
          | None => Panic
          | Some re =>
              match FindStringSubmatchIndex re value with
              | [ _; _; i2; i3 ] =>
                  before ← slice_to value i2;
                  after ← slice_from value i3;
                  Ok (Some
                    ([ mkToken TokenOQuote (str1 dquote);
                       mkToken TokenQuotedLit (maybeAddQuoteCharacter before);
                       mkToken TokenOQuote "${" ]
                     ++ TokensForTraversal traversal
                     ++ [ mkToken TokenCQuote "}";
                          mkToken TokenQuotedLit (maybeAddQuoteCharacter after);
                          mkToken TokenCQuote (str1 dquote) ]))
              | _ => Ok None
              end
          end
      | MatchOther _ => Ok None
      end
  end.

(** Names for the token lists that [getTraversalTokens] builds: the
    template that starts with the reference and ends with a literal, and
    the template with a literal on either side of the reference. *)
Definition prefixTemplate (traversal : Traversal) (rest : string) : Tokens :=
  [ mkToken TokenOQuote (String dquote "${") ]
  ++ TokensForTraversal traversal
  ++ [ mkToken TokenCQuote "}";
       mkToken TokenQuotedLit (maybeAddQuoteCharacter rest);
       mkToken TokenCQuote (str1 dquote) ].

Definition regexpTemplate (traversal : Traversal) (before after : string) : Tokens :=
  [ mkToken TokenOQuote (str1 dquote);
    mkToken TokenQuotedLit (maybeAddQuoteCharacter before);
    mkToken TokenOQuote "${" ]
  ++ TokensForTraversal traversal
  ++ [ mkToken TokenCQuote "}";
       mkToken TokenQuotedLit (maybeAddQuoteCharacter after);
       mkToken TokenCQuote (str1 dquote) ].

(** The text a quoted literal stands for: a backslash gives the byte
    that follows it. *)
Fixpoint unquoteLit (s : string) : string :=
  match s with
  | EmptyString => EmptyString
  | String c s' =>
      if Ascii.eqb c backslash then
        match s' with
        | String d s'' => String d (unquoteLit s'')
        | EmptyString => String c EmptyString
        end
      else String c (unquoteLit s')
  end.

(** The resource that [getTraversalTokens] hands to [Find]. *)
Definition lookupResource (ref : reference) (value : string) : resource :=
  {| Resource := ref_Resource ref; ID := EmptyString; Attribute := MatchAttribute ref;
     Value := value; Name := EmptyString; Mode := EmptyString; Data := zeroData |}.

(** The tokens of [reference] for a file-backed field. *)
Definition fileTokens (value : string) : Tokens :=
  [ mkToken TokenOQuote (str1 dquote);
    mkToken TokenQuotedLit ("${path.module}/" +:+ value);
    mkToken TokenCQuote (str1 dquote) ].

(** The pattern [(\.[\d]+)] of [dependsRe]. *)
Definition dependsRe : Regexp :=
  MustCompile [ GroupOpen; One (is_char "."); AtLeast is_digit 1; GroupClose ].

(** [variable]: register the variable and refer to it as [var.name]. *)
Definition variable (ic : importContext) (name desc : string) : Tokens * importContext :=
  (TokensForTraversal [ TraverseRoot "var"; TraverseAttr name ],
   set_variables (<[name := desc]> (variables ic)) ic).

(** The loop of [reference] over the declarations of the kind. *)
Fixpoint reference_loop (ic : importContext) (ds : list reference) (match_ : string)
    (path : list string) (value : string) (ctyValue : ctyValue)
    : result (Tokens * importContext) :=
  match ds with
  | [] => Ok (TokensForValue ctyValue, ic)
  | d :: rest =>
      if negb (String.eqb (ref_Path d) match_)
      then reference_loop ic rest match_ path value ctyValue
      else if ref_File d then
        let relativeFile := "${path.module}/" +:+ value in
        Ok ([ mkToken TokenOQuote (str1 dquote);
              mkToken TokenQuotedLit relativeFile;
              mkToken TokenCQuote (str1 dquote) ], ic)
      else if ref_Variable d then
        match path with
        | [] => Panic
        | p0 :: _ => Ok (variable ic (p0 +:+ "_" +:+ value) EmptyString)
        end
      else
        tokens ← getTraversalTokens ic d value;
        match tokens with
        | Some tokens => Ok (tokens, ic)
        | None => reference_loop ic rest match_ path value ctyValue
        end
  end.

(** The method [reference]: the expression for one field value. *)
Definition ic_reference (ic : importContext) (i : importable) (path : list string)
    (value : string) (ctyValue : ctyValue) : result (Tokens * importContext) :=
  let match_ := ReplaceAllString dependsRe (Join path ".") EmptyString in
  reference_loop ic (Depends i) match_ path value ctyValue.

End Resolver.

(** ** The generic projection: [dataToHcl] *)

(** [hclwrite.Body]: attributes with their tokens and nested blocks, in
    the order they were put in. *)
Inductive BodyItem :=
| BodyAttribute (name : string) (tokens : Tokens)
| BodyBlock (typ : string) (labels : list string) (body : list BodyItem).
Definition Body := list BodyItem.

Definition attribute_named (name : string) (it : BodyItem) : bool :=
  match it with
  | BodyAttribute n _ => String.eqb n name
  | BodyBlock _ _ _ => false
  end.

(** [body.SetAttributeRaw(name, tokens)]: an attribute of that name gets
    the new tokens where it stands, a new one is put at the end. *)
Definition SetAttributeRaw (name : string) (tokens : Tokens) (body : Body) : Body :=
  if List.existsb (attribute_named name) body then
    List.map (fun it => if attribute_named name it then BodyAttribute name tokens else it) body
  else body ++ [BodyAttribute name tokens].

Definition AppendBlock (b : BodyItem) (body : Body) : Body := body ++ [b].

(** The names of the attributes and blocks of a body, in order. *)
Definition body_names (body : Body) : list string :=
  List.map (fun it => match it with
                      | BodyAttribute n _ => n
                      | BodyBlock t _ _ => t
                      end) body.

Record fieldTuple := { Field : string; ft_Schema : Schema }.

Fixpoint insert_sorted {A} (less : A -> A -> bool) (x : A) (l : list A) : list A :=
  match l with
  | [] => [x]
  | y :: l' => if less y x then y :: insert_sorted less x l' else x :: l
  end.

(** [sort.Slice(x, less)], as a sort by insertion.  (The sort of the
    library is another one; on elements that [less] tells apart, as the
    fields of a schema, every sort gives the same slice.) *)
Definition sort_Slice {A} (less : A -> A -> bool) (l : list A) : list A :=
  List.fold_right (insert_sorted less) [] l.

(** The order of [dataToHcl]: [ss[i].Field > ss[j].Field] on byte strings. *)
Definition fieldGreater (x y : fieldTuple) : bool := String.ltb (Field y) (Field x).

(** The order in which one [range] over a schema map yields its entries:
    any order, and all entries once. *)
Definition rangeOrder := gmap string Schema -> list (string * Schema).

Definition range_complete (range : rangeOrder) : Prop :=
  forall m, range m ≡ₚ map_to_list m.

(** The first two statements of [dataToHcl]: the fields of the schema map,
    collected from one [range] over it and then sorted. *)
Definition sortedFields (range : rangeOrder) (pr : gmap string Schema) : list fieldTuple :=
  sort_Slice fieldGreater
    (List.map (fun '(a, as_) => {| Field := a; ft_Schema := as_ |}) (range pr)).

(** [strconv.FormatInt(n, 10)] and [strconv.Itoa]. *)
Definition FormatInt (n : Z) : string := DecimalString.NilZero.string_of_int (Z.to_int n).
Definition Itoa (n : nat) : string := FormatInt (Z.of_nat n).

(** [reflect.DeepEqual] on the values of fields. *)
Fixpoint rawValue_eqb (a b : rawValue) : bool :=
  match a, b with
  | RNil, RNil => true
  | RString s, RString t => String.eqb s t
  | RBool x, RBool y => Bool.eqb x y
  | RInt x, RInt y => Z.eqb x y
  | RFloat x, RFloat y => Z.eqb x y
  | RMap m, RMap n =>
      bool_decide (m = n)
  | RSet xs, RSet ys =>
      (fix go (xs ys : list (rawValue * Z)) : bool :=
         match xs, ys with
         | [], [] => true
         | (x, h) :: xs', (y, k) :: ys' => rawValue_eqb x y && Z.eqb h k && go xs' ys'
         | _, _ => false
         end) xs ys
  | RList xs, RList ys =>
      (fix go (xs ys : list rawValue) : bool :=
         match xs, ys with
         | [], [] => true
         | x :: xs', y :: ys' => rawValue_eqb x y && go xs' ys'
         | _, _ => false
         end) xs ys
  | ROther, ROther => true
  | _, _ => false
  end.

Section Projection.
Context `{Env}.

(** The loop of [dataToHcl] over the declarations that turn a field into
    a variable: the name policy of the kind then gives the value. *)
Fixpoint variable_override (i : importable) (d : ResourceData) (mpath : string)
    (ds : list reference) (acc : rawValue * bool) : result (rawValue * bool) :=
  match ds with
  | [] => Ok acc
  | r :: rest =>
      if String.eqb (ref_Path r) mpath && ref_Variable r then
        match imp_Name i with
        | None => Panic
        | Some f =>
            variable_override i d mpath rest
              (RString (ic_regexFix (f d) simpleNameFixes), true)
        end
      else variable_override i d mpath rest acc
  end.

(** The list of a primitive element type in [readListFromData]. *)
Fixpoint primitive_list (ic : importContext) (i : importable) (path : list string)
    (rawList : list rawValue) (toks : Tokens) : result (Tokens * importContext) :=
  match rawList with
  | [] => Ok (toks, ic)
  | raw :: rest =>
      let toks :=
        if negb (length toks =? 1)%nat then toks ++ [ mkToken TokenComma "," ] else toks in
      match raw with
      | RString value =>
          '(ts, ic) ← ic_reference ic i path value (StringVal value);
          primitive_list ic i path rest (toks ++ ts)
      | RInt x =>
          primitive_list ic i path rest (toks ++ TokensForValue (NumberIntVal x))
      | _ => Err ("unsupported primitive list: " +:+ Join path ".")
      end
  end.

(** The type of [dataToHcl] as [readListFromData] calls it: the path, the
    schema map, the body to fill and the context. *)
Definition recursion : Type :=
  list string -> gmap string Schema -> Body -> importContext ->
  result (Body * importContext).

(** One block for each element of a list of nested resources. *)
Fixpoint nested_blocks (rec : recursion)
    (path : list string) (name : string) (elem : gmap string Schema)
    (offsetConverter : nat -> string) (offsets : list nat)
    (body : Body) (ic : importContext) : result (Body * importContext) :=
  match offsets with
  | [] => Ok (body, ic)
  | offset :: rest =>
      '(inner, ic) ← rec (path ++ [offsetConverter offset]) elem [] ic;
      nested_blocks rec path name elem offsetConverter rest
        (AppendBlock (BodyBlock name [] inner) body) ic
  end.

(** [readListFromData], with the recursive call to [dataToHcl] as [rec]. *)
Definition readListFromData
    (rec : recursion)
    (ic : importContext) (i : importable) (path : list string)
    (rawList : list rawValue) (body : Body) (as_ : Schema)
    (offsetConverter : nat -> string) : result (Body * importContext) :=
  if (length rawList =? 0)%nat then Ok (body, ic)
  else
    match List.last (List.map Some path) None with
    | None => Panic
    | Some name =>
        match s_Elem as_ with
        | ElemResource elem =>
            if (s_MaxItems as_ =? 1)%Z then
              '(inner, ic) ← rec (path ++ [offsetConverter 0%nat]) elem [] ic;
              Ok (AppendBlock (BodyBlock name [] inner) body, ic)
            else
              nested_blocks rec path name elem offsetConverter
                (List.seq 0 (length rawList)) body ic
        | ElemSchema _ =>
            '(toks, ic) ← primitive_list ic i path rawList [ mkToken TokenOBrack "[" ];
            Ok (SetAttributeRaw name (toks ++ [ mkToken TokenCBrack "]" ]) body, ic)
        | ElemNone => Ok (body, ic)
        end
    end.

(** What [dataToHcl] does with one field, in the order of its loop body. *)
Definition visit_field
    (rec : recursion)
    (i : importable) (path : list string) (d : ResourceData)
    (tuple : fieldTuple) (body : Body) (ic : importContext)
    : result (Body * importContext) :=
  let a := Field tuple in
  let as_ := ft_Schema tuple in
  let pathString := Join (path ++ [a]) "." in
  let '(raw, nonZero) := rd_GetOk d pathString in
  let omit :=
    match ShouldOmitField i with
    | None => defaultShouldOmitFieldFunc ic pathString as_ d
    | Some f => f pathString as_ d
    end in
  if omit then Ok (body, ic)
  else
    let mpath := ReplaceAllString dependsRe pathString EmptyString in
    '(raw, nonZero) ← variable_override i d mpath (Depends i) (raw, nonZero);
    let shouldSkip := negb nonZero in
    let shouldSkip :=
      if s_Required as_ then false
      else match s_Default as_ with
           | Some dflt => if negb (rawValue_eqb raw dflt) then false else shouldSkip
           | None => shouldSkip
           end in
    if shouldSkip then Ok (body, ic)
    else
      match s_Type as_ with
      | TypeString =>
          match raw with
          | RString value =>
              '(tokens, ic) ← ic_reference ic i (path ++ [a]) value (StringVal value);
              Ok (SetAttributeRaw a tokens body, ic)
          | _ => Panic
          end
      | TypeBool =>
          match raw with
          | RBool b => Ok (SetAttributeRaw a (TokensForValue (BoolVal b)) body, ic)
          | _ => Panic
          end
      | TypeInt =>
          let num := match raw with RInt iv => iv | _ => 0%Z end in
          '(tokens, ic) ← ic_reference ic i (path ++ [a]) (FormatInt num) (NumberIntVal num);
          Ok (SetAttributeRaw a tokens body, ic)
      | TypeFloat =>
          match raw with
          | RFloat f => Ok (SetAttributeRaw a (TokensForValue (NumberFloatVal f)) body, ic)
          | _ => Panic
          end
      | TypeMap =>
          match raw with
          | RMap m => Ok (SetAttributeRaw a (TokensForValue (ObjectVal m)) body, ic)
          | _ => Panic
          end
      | TypeSet =>
          match raw with
          | RSet elems =>
              readListFromData rec ic i (path ++ [a]) (List.map fst elems) body as_
                (fun k => FormatInt (List.nth k (List.map snd elems) 0%Z))
          | _ => Ok (body, ic)
          end
      | TypeList =>
          match raw with
          | RList rawList =>
              readListFromData rec ic i (path ++ [a]) rawList body as_ Itoa
          | _ => Ok (body, ic)
          end
      | TypeInvalid => Err ("unsupported schema type: " +:+ Join path ".")
      end.

(** The loop of [dataToHcl] over the sorted fields; an error ends it. *)
Fixpoint visit_fields
    (rec : recursion)
    (i : importable) (path : list string) (d : ResourceData)
    (ss : list fieldTuple) (body : Body) (ic : importContext)
    : result (Body * importContext) :=
  match ss with
  | [] => Ok (body, ic)
  | tuple :: rest =>
      '(body, ic) ← visit_field rec i path d tuple body ic;
      visit_fields rec i path d rest body ic
  end.

(** [dataToHcl]: collect the fields of the schema, sort them by name in
    descending order, and visit them in that order.  The fuel bounds the
    nesting depth of the schema. *)
Fixpoint dataToHcl (range : rangeOrder) (fuel : nat) (i : importable) (d : ResourceData)
    (path : list string) (pr : gmap string Schema) (body : Body)
    (ic : importContext) : result (Body * importContext) :=
  match fuel with
  | O => NoFuel
  | S fuel' =>
      visit_fields (dataToHcl range fuel' i d) i path d (sortedFields range pr) body ic
  end.

(** The names of the fields in the order [dataToHcl] visits them. *)
Definition visitOrder (range : rangeOrder) (pr : gmap string Schema) : list string :=
  List.map Field (sortedFields range pr).

End Projection.

(** ** The per-file writer: [handleResourceWrite] *)

(** A block of an existing file as [hclwrite.ParseConfig] gives it: its
    type, its labels and its text. *)
Record hclBlock := { blk_Type : string; blk_Labels : list string; blk_Bytes : string }.

Definition generateBlockFullName (block : hclBlock) : string :=
  blk_Type block +:+ "_" +:+ Join (blk_Labels block) "_".

Record resourceWriteData := {
  BlockName : string;
  ResourceBody : string;
  ImportCommand : string
}.

(** What the writer puts into the file: the body of a generated resource,
    or a block taken over from the existing file. *)
Inductive filePiece :=
| Generated (f : resourceWriteData)
| Existing (b : hclBlock).

Definition piece_text (p : filePiece) : string :=
  match p with
  | Generated f => ResourceBody f
  | Existing b => blk_Bytes b
  end.

Definition piece_name (p : filePiece) : string :=
  match p with
  | Generated f => BlockName f
  | Existing b => generateBlockFullName b
  end.

(** The file after the writer: as it was (it could not be created),
    holding the pieces written, or removed. *)
Inductive fileState :=
| FileAsBefore
| FileHolds (pieces : list filePiece)
| FileRemoved.

(** The operating system as the writer meets it: the blocks of the file
    read and parsed before it is truncated (nil when it is missing,
    unreadable or not parsed), and whether the file can be created.
    Writes to the created file are taken to succeed. *)
Record writerOS := {
  os_ReadParse : option (list hclBlock);
  os_CreateOk : bool
}.

Record writerOutcome := {
  out_file : fileState;
  out_imports : list string;
  out_waitGroup : Z
}.

(** The loop over the channel of generated resources: write the body,
    note the block name, pass the import command on. *)
Fixpoint write_generated (ch : list (option resourceWriteData))
    (pieces : list filePiece) (newResources : gset string)
    (imports : list string) (wg : Z)
    : list filePiece * gset string * list string * Z :=
  match ch with
  | [] => (pieces, newResources, imports, wg)
  | None :: rest => write_generated rest pieces newResources imports (wg - 1)%Z
  | Some f :: rest =>
      let pieces := pieces ++ [Generated f] in
      let newResources := {[ BlockName f ]} ∪ newResources in
      if negb (is_empty (ImportCommand f)) then
        write_generated rest pieces newResources (imports ++ [ImportCommand f])
          (wg + 1 - 1)%Z
      else write_generated rest pieces newResources imports (wg - 1)%Z
  end.

(** The loop over the blocks of the existing file: keep those that were
    not generated anew, and count them. *)
Fixpoint merge_existing (blocks : list hclBlock) (newResources : gset string)
    (kept : list hclBlock) (numResources : nat) : list hclBlock * nat :=
  match blocks with
  | [] => (kept, numResources)
  | block :: rest =>
      let blockName := generateBlockFullName block in
      if bool_decide (blockName ∈ newResources)
      then merge_existing rest newResources kept numResources
      else merge_existing rest newResources (kept ++ [block]) (numResources + 1)
  end.

Definition handleResourceWrite (ic : importContext) (os : writerOS)
    (ch : list (option resourceWriteData)) : writerOutcome :=
  let existingFile := if incremental ic then os_ReadParse os else None in
  let existingFile := match existingFile with Some f => f | None => [] end in
  if negb (os_CreateOk os) then
    {| out_file := FileAsBefore; out_imports := []; out_waitGroup := waitGroup ic |}
  else
    let '(pieces, newResources, imports, wg) :=
      write_generated ch [] ∅ [] (waitGroup ic) in
    let numResources := size newResources in
    let '(pieces, numResources) :=
      if incremental ic then
        let '(kept, numResources) := merge_existing existingFile newResources [] numResources in
        (pieces ++ List.map Existing kept, numResources)
      else (pieces, numResources) in
    {| out_file := if (numResources =? 0)%nat then FileRemoved else FileHolds pieces;
       out_imports := imports;
       out_waitGroup := wg |}.

(** ** The phases of [Run] *)

Inductive dirStat := DirNotExist | DirIsDir | DirNotDir.

(** What [Run] itself does on disk. *)
Inductive fsEffect :=
| MkdirAll (dir : string)
| WriteFile (path : string).

(** The world as [Run] meets it: the start time of the last run as the
    statistics file gives it, the parsing of a time stamp (to its UTC
    form and its milliseconds), the notebook formats, the directory, the
    client, the listing phase as a whole (the import channels started,
    every listing collaborator run, the wait group at zero, the channels
    closed) and the generation phase as a whole. *)
Record RunOS := {
  run_lastRunString : string;
  run_parseRFC3339 : string -> option (string * Z);
  run_formatSupported : string -> bool;
  run_stat : dirStat;
  run_mkdirOk : bool;
  run_isAccountClient : bool;
  run_clientError : option string;
  run_meError : option string;
  run_listing : importContext -> importContext;
  run_importLines : option (list string);
  run_openImportError : option string;
  run_createDeclarationError : option string;
  run_generateAndWriteResources : importContext -> importContext * list fsEffect;
  run_createVarsError : option string;
  run_createStatsOk : bool;
  run_writeStatsError : option string;
  run_createIgnoredOk : bool;
  run_fmtError : option string
}.

Record runOutcome := {
  run_error : option string;
  run_effects : list fsEffect;
  run_context : importContext
}.

Definition upper_ascii (c : ascii) : ascii :=
  if is_lower c then ascii_of_N (N_of_ascii c - 32) else c.

(** [strings.ToUpper] on the ASCII letters. *)
Fixpoint ToUpper (s : string) : string :=
  match s with
  | EmptyString => EmptyString
  | String c s' => String (upper_ascii c) (ToUpper s')
  end.

Definition failed (msg : string) (effects : list fsEffect) (ic : importContext) : runOutcome :=
  {| run_error := Some msg; run_effects := effects; run_context := ic |}.

(** [Run] up to the listing: the checks of the set-up, in order. *)
Definition Run_setup (os : RunOS) (ic : importContext) : runOutcome :=
  let statsFileName := Directory ic +:+ "/exporter-run-stats.json" in
  if (size (services ic) =? 0)%nat then failed "no services to import" [] ic
  else
    let incr : string * importContext + importContext :=
      if incremental ic then
        let ic :=
          if is_empty (updatedSinceStr ic)
          then set_updatedSinceStr (run_lastRunString os) ic else ic in
        if is_empty (updatedSinceStr ic) then
          inl ("-updated-since is required with -interactive parameter if " +:+
               statsFileName +:+ " file doesn't exist", ic)
        else
          match run_parseRFC3339 os (updatedSinceStr ic) with
          | None =>
              inl ("can't parse value '" +:+ updatedSinceStr ic +:+
                   "' please specify it in ISO8601 format, i.e. 2023-07-01T00:00:00Z", ic)
          | Some (utc, ms) => inr (set_updatedSinceMs ms (set_updatedSinceStr utc ic))
          end
      else inr ic in
    match incr with
    | inl (msg, ic) => failed msg [] ic
    | inr ic =>
        let ic := set_notebooksFormat (ToUpper (notebooksFormat ic)) ic in
        if negb (run_formatSupported os (notebooksFormat ic))
           && negb (String.eqb (notebooksFormat ic) "SOURCE")
        then failed ("unsupported notebook format: '" +:+ notebooksFormat ic +:+ "'") [] ic
        else
          let dir : string + list fsEffect :=
            match run_stat os with
            | DirNotExist =>
                if run_mkdirOk os then inr [MkdirAll (Directory ic)]
                else inl ("can't create directory " +:+ Directory ic)
            | DirNotDir => inl ("the path " +:+ Directory ic +:+ " is not a directory")
            | DirIsDir => inr []
            end in
          match dir with
          | inl msg => failed msg [] ic
          | inr effects =>
              let ic := set_accountLevel (run_isAccountClient os) ic in
              match run_clientError os with
              | Some msg => failed msg effects ic
              | None =>
                  match (if accountLevel ic then None else run_meError os) with
                  | Some msg => failed msg effects ic
                  | None =>
                      {| run_error := None; run_effects := effects; run_context := ic |}
                  end
              end
          end
    end.

(** [generateVariables]: nothing without variables, else the variables
    file is created and written. *)
Definition generateVariables (os : RunOS) (ic : importContext) : string + list fsEffect :=
  if (size (variables ic) =? 0)%nat then inr []
  else
    match run_createVarsError os with
    | Some msg => inl msg
    | None => inr [WriteFile (Directory ic +:+ "/vars.tf")]
    end.

(** [Run] after the listing, for a scope that is not empty: the import
    script, the provider declaration, the generated files, the variables,
    the statistics, the ignored resources and the formatter. *)
Definition Run_write (os : RunOS) (effects : list fsEffect) (ic : importContext)
    : runOutcome :=
  let shFileName := Directory ic +:+ "/import.sh" in
  let ic :=
    if incremental ic then
      match run_importLines os with
      | Some lines =>
          set_shImports
            (list_to_set (List.filter (fun line => HasPrefix line "terraform import ") lines)
               ∪ shImports ic) ic
      | None => ic
      end
    else ic in
  match run_openImportError os with
  | Some msg => failed msg effects ic
  | None =>
      let effects := effects ++ [WriteFile shFileName] in
      let decl : string + list fsEffect :=
        if generateDeclaration ic then
          match run_createDeclarationError os with
          | Some msg => inl msg
          | None => inr [WriteFile (Directory ic +:+ "/databricks.tf")]
          end
        else inr [] in
      match decl with
      | inl msg => failed msg effects ic
      | inr written =>
          let effects := effects ++ written in
          let '(ic, written) := run_generateAndWriteResources os ic in
          let effects := effects ++ written in
          match generateVariables os ic with
          | inl msg => failed msg effects ic
          | inr written =>
              let effects := effects ++ written in
              let stats : string + list fsEffect :=
                if run_createStatsOk os then
                  match run_writeStatsError os with
                  | Some msg => inl msg
                  | None => inr [WriteFile (Directory ic +:+ "/exporter-run-stats.json")]
                  end
                else inr [] in
              match stats with
              | inl msg =>
                  failed msg
                    (effects ++ [WriteFile (Directory ic +:+ "/exporter-run-stats.json")]) ic
              | inr written =>
                  let effects := effects ++ written in
                  let effects :=
                    if run_createIgnoredOk os
                    then effects ++ [WriteFile (Directory ic +:+ "/ignored_resources.txt")]
                    else effects in
                  match (if noFormat ic then None else run_fmtError os) with
                  | Some msg => failed msg effects ic
                  | None =>
                      {| run_error := None; run_effects := effects; run_context := ic |}
                  end
              end
          end
      end
  end.

(** [Run]: the set-up, the listing, the check of the scope, the writing. *)
Definition Run (os : RunOS) (ic : importContext) : runOutcome :=
  let s := Run_setup os ic in
  match run_error s with
  | Some _ => s
  | None =>
      let ic := run_listing os (run_context s) in
      if (length (Scope ic) =? 0)%nat
      then failed "no resources to import" (run_effects s) ic
      else Run_write os (run_effects s) ic
  end.

(** Whether an effect writes one of the files of the export: a
    configuration file, the import script or the variables file. *)
Definition writes_file (e : fsEffect) : bool :=
  match e with
  | WriteFile _ => true
  | MkdirAll _ => false
  end.

(** ** A fresh context, and one reading of the functions left open *)

(** [makeResourcesChannels]: one empty channel for each kind with a
    dedicated channel; [dedicated] is the list the environment gives, if
    it gives one. *)
Definition makeResourcesChannels (dedicated : option (list string))
    : gmap string (list resource) :=
  let resources :=
    match dedicated with
    | Some l => l
    | None => [ "databricks_user"; "databricks_service_principal"; "databricks_group" ]
    end in
  List.fold_left (fun channels r => <[r := []]> channels) resources ∅.

(** [newImportContext], for the kinds [resourcesMap] and the provider
    resources [providerResources]. *)
Definition newImportContext (resourcesMap : gmap string importable)
    (providerResources : gmap string SchemaResource) : importContext :=
  {| Module_ := EmptyString;
     Importables := resourcesMap;
     Resources := providerResources;
     Directory := EmptyString;
     nameFixes := package_nameFixes;
     hclFixes := [];
     variables := ∅;
     channels := makeResourcesChannels None;
     defaultChannel := [];
     State := [];
     Scope := [];
     incremental := false;
     services := ∅;
     listing := EmptyString;
     generateDeclaration := false;
     noFormat := false;
     prefix := EmptyString;
     accountLevel := false;
     shImports := ∅;
     notebooksFormat := "SOURCE";
     updatedSinceStr := EmptyString;
     updatedSinceMs := 0%Z;
     waitGroup := 0%Z;
     testEmits := None;
     importing := ∅ |}.

Module Sample.

(** Modelled from the spec: a resource carries "an optional (attribute,
    value) pair used for reference matching" next to its id; the pair to
    match on is the synthetic [id] attribute with the id when there is an
    id, and the declared pair otherwise. *)
Definition MatchPair (r : resource) : string * string :=
  if is_empty (ID r) then (Attribute r, Value r) else ("id", ID r).

(** Modelled from the spec: the "string identity used by the Identity
    Tracker", derived from the kind, the name and the match pair. *)
Definition resource_String (r : resource) : string :=
  let n := if is_empty (Name r) then "<unknown>" else Name r in
  let '(a, v) := MatchPair r in
  Resource r +:+ "[" +:+ n +:+ "] (" +:+ a +:+ ": " +:+ v +:+ ")".

(** Modelled from the spec: the target attribute of a reference, the
    synthetic [id] when none is declared. *)
Definition MatchAttribute (ref : reference) : string :=
  if is_empty (ref_Match ref) then "id" else ref_Match ref.

(** Modelled from the spec: "exact / default" is one policy. *)
Definition MatchTypeValue (ref : reference) : MatchType :=
  match ref_MatchType ref with
  | MatchDefault => MatchExact
  | m => m
  end.

Definition has_attribute (attr value : string) (sr : resourceApproximation) : bool :=
  List.existsb (fun i => bool_decide (inst_Attributes i !! attr = Some value))
    (sr_Instances sr).

(** Modelled from the spec: [get(kind, attribute, value)], the first
    approximation of the kind one of whose instances has the value for
    the attribute. *)
Definition State_Get (s : stateApproximation) (kind attr value : string)
    : option resourceApproximation :=
  List.find (has_attribute attr value) (State_Resources s kind).

(** Modelled from the spec: the State Approximation has a resource when
    it holds an instance of its kind that has the value of its match pair
    for the attribute of its match pair. *)
Definition State_Has (s : stateApproximation) (r : resource) : bool :=
  let '(k, v) := MatchPair r in
  match State_Get s (Resource r) k v with Some _ => true | None => false end.

(** Modelled from the spec: a field is left out when it carries its
    default value. *)
Definition defaultShouldOmitFieldFunc (ic : importContext) (pathString : string)
    (as_ : Schema) (d : ResourceData) : bool :=
  match s_Default as_ with
  | Some dflt => rawValue_eqb (fst (rd_GetOk d pathString)) dflt
  | None => false
  end.

(** Modelled from the spec: the less aggressive normalisation replaces
    every run of non-word characters by an underscore. *)
Definition simpleNameFixes : list regexFix :=
  [ {| Regex := MustCompile [ AtLeast class_nonword 1 ]; Replacement := "_" |} ].

(** A rendering of literal values: a string between quotes, a number or
    a truth value as one token, an object between braces. *)
Definition TokensForValue (v : ctyValue) : Tokens :=
  let quoted (s : string) :=
    [ {| tok_Type := TokenOQuote; tok_Bytes := str1 dquote |};
      {| tok_Type := TokenQuotedLit; tok_Bytes := s |};
      {| tok_Type := TokenCQuote; tok_Bytes := str1 dquote |} ] in
  match v with
  | StringVal s => quoted s
  | BoolVal b => [ {| tok_Type := TokenIdent; tok_Bytes := if b then "true" else "false" |} ]
  | NumberIntVal n => [ {| tok_Type := TokenNumberLit; tok_Bytes := FormatInt n |} ]
  | NumberFloatVal bits => [ {| tok_Type := TokenNumberLit; tok_Bytes := FormatInt bits |} ]
  | ObjectVal attrs =>
      [ {| tok_Type := TokenOBrace; tok_Bytes := "{" |} ]
      ++ List.flat_map (fun '(k, x) =>
           [ {| tok_Type := TokenIdent; tok_Bytes := k |};
             {| tok_Type := TokenEqual; tok_Bytes := "=" |} ]
           ++ quoted x
           ++ [ {| tok_Type := TokenNewline; tok_Bytes := String "010"%char EmptyString |} ])
           attrs
      ++ [ {| tok_Type := TokenCBrace; tok_Bytes := "}" |} ]
  end.

#[global] Instance env : Env :=
  Build_Env MatchPair resource_String MatchAttribute MatchTypeValue State_Has State_Get
    defaultShouldOmitFieldFunc simpleNameFixes TokensForValue.

End Sample.

(** ** Notions the properties are stated with *)

(** What [maybeAddQuoteCharacter] does to one byte. *)
Definition escaped (c : ascii) : string :=
  if Ascii.eqb c backslash then String backslash (str1 backslash)
  else if Ascii.eqb c dquote then String backslash (str1 dquote)
  else str1 c.

(** No instance in the list has, for the attribute, a value that the
    queried value starts with. *)
Definition no_prefix_match (value attr : string) (insts : list instanceApproximation) : Prop :=
  Forall (fun i => forall c, inst_Attributes i !! attr = Some c -> HasPrefix value c = false)
    insts.

(** [s1 < s2] on byte strings. *)
Definition str_lt (a b : string) : Prop := String.ltb a b = true.

(** The order on the fields that [dataToHcl] sorts by. *)
Definition field_gt (x y : fieldTuple) : Prop := fieldGreater x y = true.

Definition fieldTuples (l : list (string * Schema)) : list fieldTuple :=
  List.map (fun '(a, as_) => {| Field := a; ft_Schema := as_ |}) l.

(** Two ways to call [dataToHcl] back that give the same. *)
Definition same_recursion (rec1 rec2 : recursion) : Prop :=
  forall p m b c, rec1 p m b c = rec2 p m b c.

(** ** Sample inputs *)

Definition sample_cluster : resource :=
  {| Resource := "databricks_cluster"; ID := "c1"; Attribute := EmptyString;
     Value := EmptyString; Name := EmptyString; Mode := EmptyString;
     Data := zeroData |}.

Definition sample_importables : gmap string importable :=
  {[ "databricks_cluster" :=
       {| Service := "compute"; imp_Name := None; imp_List := true; Ignore := None;
          Depends := []; AccountLevel := false; WorkspaceLevel := true;
          ShouldOmitField := None |} ]}.

Definition sample_resources : gmap string SchemaResource :=
  {[ "databricks_cluster" := {| res_Schema := ∅; res_Importer := true |} ]}.

(** A context in which the service of clusters is enabled. *)
Definition sample_context : importContext :=
  set_services {[ "compute" ]} (newImportContext sample_importables sample_resources).

(** A resource of which only the name is given, as in the tests of the
    naming. *)
Definition named (n : string) : resource :=
  {| Resource := EmptyString; ID := EmptyString; Attribute := EmptyString;
     Value := EmptyString; Name := n; Mode := EmptyString; Data := zeroData |}.

(** A fresh context without kinds. *)
Definition fresh_context : importContext := newImportContext ∅ ∅.

(** A repository with a path, with a state at hand. *)
Definition repo (id name path : string) : resource :=
  {| Resource := "databricks_repo"; ID := id; Attribute := EmptyString;
     Value := EmptyString; Name := name; Mode := EmptyString;
     Data := {| rd_State := Some {| Attributes := {[ "path" := path ]} |};
                rd_GetOk := fun _ => (RNil, false) |} |}.

(** The context after one repository, and after two repositories one of
    whose paths is the beginning of the other, were added. *)
Definition one_repo : importContext := Add fresh_context (repo "2" "b" "foo").
Definition two_repos : importContext :=
  Add (Add fresh_context (repo "1" "a" "f")) (repo "2" "b" "foo").

(** A field that refers to a repository by the beginning of a path. *)
Definition by_path_prefix : reference :=
  {| ref_Path := "notebook_path"; ref_Resource := "databricks_repo"; ref_Match := "path";
     ref_MatchType := MatchPrefix; ref_Regexp := None; ref_File := false;
     ref_Variable := false |}.

Definition approximation_b : resourceApproximation :=
  {| sr_Mode := "managed"; sr_Module := EmptyString; sr_Type := "databricks_repo";
     sr_Name := "b";
     sr_Instances := [ {| inst_Attributes := <["id" := "2"]> {[ "path" := "foo" ]} |} ] |}.

(** A field that refers to a job by the number inside a path. *)
Definition job_number : Regexp :=
  MustCompile [ One (is_char "/"); GroupOpen; AtLeast is_digit 1; GroupClose; One (is_char "/") ].

Definition by_job_number : reference :=
  {| ref_Path := "job_path"; ref_Resource := "databricks_job"; ref_Match := EmptyString;
     ref_MatchType := MatchRegexp; ref_Regexp := Some job_number; ref_File := false;
     ref_Variable := false |}.

(** A field that refers to a job by the first of two numbers inside a
    path: a pattern with two capture groups. *)
Definition job_and_run_number : Regexp :=
  MustCompile [ One (is_char "/"); GroupOpen; AtLeast is_digit 1; GroupClose;
                One (is_char "/"); GroupOpen; AtLeast is_digit 1; GroupClose ].

Definition by_job_and_run_number : reference :=
  {| ref_Path := "run_path"; ref_Resource := "databricks_job"; ref_Match := EmptyString;
     ref_MatchType := MatchRegexp; ref_Regexp := Some job_and_run_number; ref_File := false;
     ref_Variable := false |}.

Definition job (id name : string) : resource :=
  {| Resource := "databricks_job"; ID := id; Attribute := EmptyString;
     Value := EmptyString; Name := name; Mode := EmptyString;
     Data := {| rd_State := Some {| Attributes := ∅ |};
                rd_GetOk := fun _ => (RNil, false) |} |}.

Definition one_job : importContext := Add fresh_context (job "42" "nightly").

Definition approximation_job : resourceApproximation :=
  {| sr_Mode := "managed"; sr_Module := EmptyString; sr_Type := "databricks_job";
     sr_Name := "nightly";
     sr_Instances := [ {| inst_Attributes := <["id" := "42"]> ∅ |} ] |}.

(** A kind with a file-backed field and a field that becomes a variable. *)
Definition with_file_and_variable : importable :=
  {| Service := "storage"; imp_Name := None; imp_List := false; Ignore := None;
     Depends :=
       [ {| ref_Path := "source"; ref_Resource := EmptyString; ref_Match := EmptyString;
            ref_MatchType := MatchDefault; ref_Regexp := None; ref_File := true;
            ref_Variable := false |};
         {| ref_Path := "tokens.value"; ref_Resource := EmptyString; ref_Match := EmptyString;
            ref_MatchType := MatchDefault; ref_Regexp := None; ref_File := false;
            ref_Variable := true |} ];
     AccountLevel := false; WorkspaceLevel := true; ShouldOmitField := None |}.

(** The generated resources that a channel carries, without the nils. *)
Definition generated_of (ch : list (option resourceWriteData)) : list resourceWriteData :=
  omap id ch.

(** The merge in the words of the specification: the newly generated
    blocks, then, on an incremental run, every block of the prior file
    whose identity is not among the newly generated ones. *)
Definition merged_pieces (incr : bool) (prior : list hclBlock)
    (new : list resourceWriteData) : list filePiece :=
  List.map Generated new
  ++ (if incr then
        List.map Existing
          (List.filter
             (fun b => negb (bool_decide (generateBlockFullName b ∈ List.map BlockName new)))
             prior)
      else []).

Definition prior_blocks (ic : importContext) (os : writerOS) : list hclBlock :=
  match (if incremental ic then os_ReadParse os else None) with
  | Some blocks => blocks
  | None => []
  end.

(** The blocks of the test of the incremental run, and a third one. *)
Definition pipeline_block (name text : string) : hclBlock :=
  {| blk_Type := "resource"; blk_Labels := [ "databricks_pipeline"; name ];
     blk_Bytes := text |}.

Definition pipeline_data (name body : string) : resourceWriteData :=
  {| BlockName := "resource_databricks_pipeline_" +:+ name; ResourceBody := body;
     ImportCommand := "terraform import databricks_pipeline." +:+ name |}.

(** A schema with three fields and a data handle that has a value for
    two of them. *)
Definition cluster_schema : gmap string Schema :=
  {[ "cluster_name" := mkSchema TypeString true None 0 ElemNone;
     "num_workers" := mkSchema TypeInt false None 0 ElemNone;
     "spark_version" := mkSchema TypeString false None 0 ElemNone ]}.

Definition cluster_data : ResourceData :=
  {| rd_State := None;
     rd_GetOk := fun p =>
       if String.eqb p "cluster_name" then (RString "shared", true)
       else if String.eqb p "num_workers" then (RInt 2, true)
       else (RNil, false) |}.

Definition plain_kind : importable :=
  {| Service := "compute"; imp_Name := None; imp_List := true; Ignore := None;
     Depends := []; AccountLevel := false; WorkspaceLevel := true;
     ShouldOmitField := None |}.

(** Two orders of a [range]: the one of the map, and its reverse. *)
Definition range_forward : rangeOrder := map_to_list.
Definition range_backward : rangeOrder := fun m => List.rev (map_to_list m).

(** A world in which the directory has to be made, the client answers,
    and every listing collaborator finds nothing. *)
Definition quiet_world : RunOS :=
  {| run_lastRunString := EmptyString;
     run_parseRFC3339 := fun _ => None;
     run_formatSupported := fun _ => false;
     run_stat := DirNotExist;
     run_mkdirOk := true;
     run_isAccountClient := false;
     run_clientError := None;
     run_meError := None;
     run_listing := fun ic => ic;
     run_importLines := None;
     run_openImportError := None;
     run_createDeclarationError := None;
     run_generateAndWriteResources := fun ic => (ic, [ WriteFile (Directory ic +:+ "/compute.tf") ]);
     run_createVarsError := None;
     run_createStatsOk := true;
     run_writeStatsError := None;
     run_createIgnoredOk := true;
     run_fmtError := None |}.

(** The same world, with a listing that adds one cluster to the scope. *)
Definition busy_world : RunOS :=
  {| run_lastRunString := EmptyString;
     run_parseRFC3339 := fun _ => None;
     run_formatSupported := fun _ => false;
     run_stat := DirNotExist;
     run_mkdirOk := true;
     run_isAccountClient := false;
     run_clientError := None;
     run_meError := None;
     run_listing := fun ic => set_Scope (Scope ic ++ [ sample_cluster ]) ic;
     run_importLines := None;
     run_openImportError := None;
     run_createDeclarationError := None;
     run_generateAndWriteResources := fun ic => (ic, [ WriteFile (Directory ic +:+ "/compute.tf") ]);
     run_createVarsError := None;
     run_createStatsOk := true;
     run_writeStatsError := None;
     run_createIgnoredOk := true;
     run_fmtError := None |}.

(** The names [ns] come from walking the fields [vs] in order and putting
    out the name of each field any number of times, also not at all. *)
Inductive emitted_in_order : list string -> list string -> Prop :=
| emitted_done : emitted_in_order [] []
| emitted_skip a vs ns : emitted_in_order vs ns -> emitted_in_order (a :: vs) ns
| emitted_more a vs ns : emitted_in_order (a :: vs) ns -> emitted_in_order (a :: vs) (a :: ns).

(** A string of [n] letters a. *)
Fixpoint letters_a (n : nat) : string :=
  match n with
  | O => EmptyString
  | S n' => String "a"%char (letters_a n')
  end.

(** The repository with the path "foo", referred to by its path, with a
    data handle without state. *)
Definition repo_by_path : resource :=
  {| Resource := "databricks_repo"; ID := EmptyString; Attribute := "path";
     Value := "foo"; Name := EmptyString; Mode := EmptyString; Data := zeroData |}.

(** * Properties *)

(** ** Go strings *)

Lemma String_app c (a b : string) : String c a +:+ b = String c (a +:+ b).
Proof. reflexivity. Qed.

Lemma str_take_drop n s : str_take n s +:+ str_drop n s = s.
Proof.
  revert s; induction n as [|n IH]; intros [|c s]; simpl; try reflexivity.
  rewrite String_app. f_equal. apply IH.
Qed.

Lemma HasPrefix_take s p : HasPrefix s p = true -> str_take (String.length p) s = p.
Proof.
  revert s; induction p as [|c p IH]; intros [|d s]; simpl; try easy.
  destruct (Ascii.eqb c d) eqn:E; [|easy].
  apply Ascii.eqb_eq in E; subst d. intros H. now rewrite (IH _ H).
Qed.

Lemma HasPrefix_app p t : HasPrefix (p +:+ t) p = true.
Proof.
  induction p as [|c p IH]; [reflexivity|].
  rewrite String_app. simpl. now rewrite Ascii.eqb_refl.
Qed.

(** A prefix followed by what is left after it is the whole string. *)
Lemma HasPrefix_split s p :
  HasPrefix s p = true -> p +:+ str_drop (String.length p) s = s.
Proof.
  intros H. rewrite <- (HasPrefix_take _ _ H) at 1. apply str_take_drop.
Qed.

Lemma str_slice_split lo hi s :
  (lo <= hi)%nat -> (hi <= String.length s)%nat ->
  str_take lo s +:+ str_slice lo hi s +:+ str_drop hi s = s.
Proof.
  intros Hlo Hhi. unfold str_slice.
  assert (E : str_drop hi s = str_drop (hi - lo) (str_drop lo s)).
  { replace hi with (lo + (hi - lo))%nat at 1 by lia.
    generalize (hi - lo)%nat as k. clear. revert s.
    induction lo as [|lo IH]; intros s k; simpl; [reflexivity|].
    destruct s as [|c s]; [now destruct k|]. apply IH. }
  rewrite E, str_take_drop. apply str_take_drop.
Qed.

(** ** The digest and the patterns, on known values *)

Lemma hex_length bs : String.length (MD5.hex bs) = (2 * List.length bs)%nat.
Proof. induction bs as [|b bs IH]; simpl; [reflexivity | rewrite IH; lia]. Qed.

Lemma le_bytes_length n x : List.length (MD5.le_bytes n x) = n.
Proof. revert x; induction n as [|n IH]; intros x; simpl; [reflexivity | now rewrite IH]. Qed.

Lemma Sum_length data : List.length (MD5.Sum data) = 16%nat.
Proof.
  unfold MD5.Sum. destruct (MD5.blocks _ _ _) as [[[a b] c] d].
  rewrite !List.length_app, !le_bytes_length. reflexivity.
Qed.

Example Sum_empty :
  MD5.hex (MD5.Sum (MD5.bytes_of_string EmptyString)) = "d41d8cd98f00b204e9800998ecf8427e".
Proof. vm_compute. reflexivity. Qed.

Example Sum_abc :
  MD5.hex (MD5.Sum (MD5.bytes_of_string "abc")) = "900150983cd24fb0d6963f7d28e17f72".
Proof. vm_compute. reflexivity. Qed.

Example Sum_two_blocks :
  MD5.hex (MD5.Sum (MD5.bytes_of_string
    "message digestmessage digestmessage digestmessage digestmessage digestmessage digestmessage digestmessage digestmessage digestmessage digest"))
  = "51a6e353a51c5b64108f96bbe5d7b8b3".
Proof. vm_compute. reflexivity. Qed.

(** The digest at the lengths where the padding turns over. *)
Example Sum_padding :
  List.map (fun n => MD5.hex (MD5.Sum (MD5.bytes_of_string (letters_a n))))
    [ 55; 56; 63; 64; 119; 120 ]%nat
  = [ "ef1772b6dff9a122358552954ad0df65"; "3b0c8ac703f828b04c6c197006d17218";
      "b06521f39153d618550606be297466d5"; "014842d480b571495a4a0363793f7367";
      "8a7bd0732ed6a28ce75f6dabc90e1613"; "5f61c0ccad4cac44c75ff505e1f1e537" ].
Proof. vm_compute. reflexivity. Qed.

Example replace_runs :
  ReplaceAllString (MustCompile [AtLeast (is_char "_") 2]) "a__b_c____" "_" = "a_b_c_".
Proof. vm_compute. reflexivity. Qed.

Example submatch_index :
  FindStringSubmatchIndex
    (MustCompile [One (is_char "x"); GroupOpen; AtLeast is_digit 1; GroupClose]) "ax12b"
  = [1; 4; 2; 4]%Z.
Proof. vm_compute. reflexivity. Qed.

(** ** The identity tracker *)

Section TrackerFacts.
Context `{Env}.

Lemma Has_recorded ic r :
  is_Some (importing ic !! resource_String r) -> Has ic r = true.
Proof.
  intros [v Hv]. unfold Has, HasInState, isImporting. rewrite Hv.
  simpl. now rewrite orb_true_r.
Qed.

Lemma Has_in_State ic r : State_Has (State ic) r = true -> Has ic r = true.
Proof.
  intros Hs. unfold Has, HasInState. destruct (isImporting _ _) as [v visiting].
  now destruct (visiting && _).
Qed.

(** [Emit] on a resource the context already has leaves the context as it is. *)
Lemma Emit_Has ic r : Has ic r = true -> Emit ic r = ic.
Proof.
  intros Hhas. unfold Emit. destruct (MatchPair r) as [a v].
  destruct (is_empty v); [reflexivity|].
  destruct (Importables ic !! Resource r) as [ir|]; [|reflexivity].
  destruct (negb _); [reflexivity|]. now rewrite Hhas.
Qed.

(** [Emit] in test mode only notes the identity in [testEmits]. *)
Lemma Emit_test_mode ic r a v ir te :
  MatchPair r = (a, v) -> is_empty v = false ->
  Importables ic !! Resource r = Some ir ->
  isServiceEnabled ic (Service ir) = true ->
  Has ic r = false -> testEmits ic = Some te ->
  Emit ic r = set_testEmits (Some (<[resource_String r := true]> te)) ic.
Proof.
  intros Emp Ev Eir Esv Ehas Ete. unfold Emit.
  now rewrite Emp, Ev, Eir, Esv, Ehas, Ete.
Qed.

(** Past the checks and outside test mode, [Emit] records the identity. *)
Lemma Emit_records ic r a v ir :
  MatchPair r = (a, v) -> is_empty v = false ->
  Importables ic !! Resource r = Some ir ->
  isServiceEnabled ic (Service ir) = true ->
  Has ic r = false -> testEmits ic = None ->
  importing (Emit ic r) = <[resource_String r := false]> (importing ic).
Proof.
  intros Emp Ev Eir Esv Ehas Ete. unfold Emit.
  rewrite Emp, Ev, Eir, Esv, Ehas, Ete. cbn zeta.
  destruct (Resources _ !! Resource r); [|reflexivity].
  destruct (_ && _); [reflexivity|].
  destruct (channels _ !! Resource r); reflexivity.
Qed.

(** A second [Emit] of the same resource adds nothing to the first. *)
Lemma Emit_twice ic r : Emit (Emit ic r) r = Emit ic r.
Proof.
  destruct (MatchPair r) as [a v] eqn:Emp.
  destruct (is_empty v) eqn:Ev.
  { assert (E : Emit ic r = ic) by (unfold Emit; now rewrite Emp, Ev).
    now rewrite !E. }
  destruct (Importables ic !! Resource r) as [ir|] eqn:Eir.
  2:{ assert (E : Emit ic r = ic) by (unfold Emit; now rewrite Emp, Ev, Eir).
      now rewrite !E. }
  destruct (isServiceEnabled ic (Service ir)) eqn:Esv.
  2:{ assert (E : Emit ic r = ic) by (unfold Emit; now rewrite Emp, Ev, Eir, Esv).
      now rewrite !E. }
  destruct (Has ic r) eqn:Ehas.
  { now rewrite !(Emit_Has ic r Ehas). }
  destruct (testEmits ic) as [te|] eqn:Ete.
  - rewrite (Emit_test_mode ic r a v ir te) by assumption.
    rewrite (Emit_test_mode (set_testEmits _ ic) r a v ir
               (<[resource_String r := true]> te) Emp Ev Eir Esv Ehas eq_refl).
    rewrite insert_insert_eq. reflexivity.
  - apply Emit_Has, Has_recorded.
    rewrite (Emit_records ic r a v ir) by assumption.
    rewrite lookup_insert_eq. eauto.
Qed.

Lemma HasInState_added ic r r' :
  resource_String r' = resource_String r ->
  importing ic !! resource_String r = Some true ->
  forall onlyAdded, HasInState ic r' onlyAdded = true.
Proof.
  intros Hs Hrec onlyAdded. unfold HasInState, isImporting. now rewrite Hs, Hrec.
Qed.

(** [Add] on a resource that is already added leaves the context as it is. *)
Lemma Add_added ic r : HasInState ic r true = true -> Add ic r = ic.
Proof. intros Hh. unfold Add. now rewrite Hh. Qed.

(** A second [Add] of the same resource adds nothing to the first. *)
Lemma Add_twice ic r : Add (Add ic r) r = Add ic r.
Proof.
  destruct (HasInState ic r true) eqn:Hh.
  - now rewrite !(Add_added ic r Hh).
  - apply Add_added. apply (HasInState_added _ r); [reflexivity|].
    unfold Add. rewrite Hh. destruct (rd_State (Data r)); cbn; apply lookup_insert_eq.
Qed.

(** C1. [Emit] is deduplicating.  For every resource whose identity is
    recorded in the importing map, with either flag, or that the State
    Approximation already has, [Emit] is a no-op: the context it returns,
    with its importing map, its State Approximation, its scope, its
    channels and its wait-group counter, is the context it was given.
    And whatever the context, a second [Emit] of the same resource leaves
    what the first one left, so that a resource is put on a channel at
    most once; and a second [Add] of the same resource leaves what the
    first one left, so that it gets at most one entry in the State
    Approximation and in the scope. *)
Theorem Emit_dedup (ic : importContext) (r : resource) :
  (is_Some (importing ic !! resource_String r) \/ State_Has (State ic) r = true ->
   Emit ic r = ic)
  /\ Emit (Emit ic r) r = Emit ic r
  /\ Add (Add ic r) r = Add ic r.
Proof.
  split; [|split; [apply Emit_twice | apply Add_twice]].
  intros [Hrec|Hst]; apply Emit_Has; [now apply Has_recorded | now apply Has_in_State].
Qed.

(** C9. For every resource whose match pair has the empty string as its
    value, [Emit] returns at once: the context, with its importing map,
    its State Approximation, its scope and its channels, is unchanged. *)
Theorem Emit_empty_identifier (ic : importContext) (r : resource) :
  snd (MatchPair r) = EmptyString -> Emit ic r = ic.
Proof.
  intros Hv. unfold Emit. destruct (MatchPair r) as [a v]. simpl in Hv. now subst v.
Qed.

(** C10 (as amended). For every resource whose data handle has a nil
    state and for which the State Approximation holds no entry, [Add]
    leaves the identity marked as added in the importing map and returns
    without appending to the State Approximation or to the scope; so
    every later [Has], [HasInState] and [Add] for the same identity
    treats the resource as already there, although the State
    Approximation still has no entry for it.  (When [Add] gets past its
    guard, the mark is all it does.) *)
Theorem Add_nil_state (ic : importContext) (r : resource) :
  rd_State (Data r) = None ->
  State_Has (State ic) r = false ->
  importing (Add ic r) !! resource_String r = Some true
  /\ (HasInState ic r true = false ->
      Add ic r = setImportingState ic (resource_String r) true)
  /\ State (Add ic r) = State ic
  /\ Scope (Add ic r) = Scope ic
  /\ (forall r', resource_String r' = resource_String r ->
        Has (Add ic r) r' = true
        /\ HasInState (Add ic r) r' true = true
        /\ Add (Add ic r) r' = Add ic r)
  /\ State_Has (State (Add ic r)) r = false.
Proof.
  intros Hnil Hst.
  assert (Hmark : importing (Add ic r) !! resource_String r = Some true).
  { unfold Add. destruct (HasInState ic r true) eqn:Hh.
    - unfold HasInState, isImporting in Hh.
      destruct (importing ic !! resource_String r) as [[|]|]; simpl in Hh; congruence.
    - rewrite Hnil. cbn. apply lookup_insert_eq. }
  assert (Hstate : State (Add ic r) = State ic).
  { unfold Add. destruct (HasInState ic r true); [reflexivity|]. now rewrite Hnil. }
  assert (Hscope : Scope (Add ic r) = Scope ic).
  { unfold Add. destruct (HasInState ic r true); [reflexivity|]. now rewrite Hnil. }
  repeat split; try assumption.
  - intros Hh. unfold Add. now rewrite Hh, Hnil.
  - now apply (HasInState_added _ r).
  - now apply (HasInState_added _ r).
  - apply Add_added. now apply (HasInState_added _ r).
  - now rewrite Hstate.
Qed.

End TrackerFacts.

(** The first [Emit] of the cluster records it and sends it; the second
    is a no-op. *)
Lemma Emit_dedup_witness :
  let ic := Emit sample_context sample_cluster in
  length (defaultChannel ic) = 1%nat /\ Emit ic sample_cluster = ic.
Proof.
  split; [reflexivity|].
  apply (proj1 (Emit_dedup (Emit sample_context sample_cluster) sample_cluster)).
  left. vm_compute. eauto.
Defined.

Lemma Emit_empty_identifier_witness :
  Emit sample_context (with_Mode {| Resource := "databricks_cluster"; ID := EmptyString;
                                    Attribute := "cluster_name"; Value := EmptyString;
                                    Name := "shared"; Mode := EmptyString;
                                    Data := zeroData |} EmptyString)
  = sample_context.
Proof. apply Emit_empty_identifier. reflexivity. Defined.

(** A resource that the State Approximation already has, under another
    identity, is stopped by the guard of [Add]: nothing is marked. *)
Lemma Add_nil_state_guarded :
  ~ (forall (ic : importContext) (r : resource),
       rd_State (Data r) = None ->
       importing (Add ic r) !! resource_String r = Some true
       /\ State (Add ic r) = State ic
       /\ Scope (Add ic r) = Scope ic
       /\ (forall r', resource_String r' = resource_String r ->
             Has (Add ic r) r' = true
             /\ HasInState (Add ic r) r' true = true
             /\ Add (Add ic r) r' = Add ic r)).
Proof.
  intros Hall. destruct (Hall one_repo repo_by_path eq_refl) as [Hmark _].
  vm_compute in Hmark. discriminate Hmark.
Qed.

Lemma Add_nil_state_witness :
  importing (Add sample_context sample_cluster) !! resource_String sample_cluster = Some true
  /\ State (Add sample_context sample_cluster) = []
  /\ Scope (Add sample_context sample_cluster) = [].
Proof.
  destruct (Add_nil_state sample_context sample_cluster) as (Hm & _ & Hst & Hsc & _);
    [reflexivity | reflexivity |].
  repeat split; assumption.
Defined.

(** ** Naming *)

Lemma ResourceName_unfold ic r :
  ResourceName ic r =
  let n := normalizedName ic r in
  if MatchString leadingDigitRe n || is_empty n then
    str_slice 0 12
      (Sprintf_r_hex_md5 (if is_empty n then ID r else prefix ic +:+ rawName ic r))
  else n.
Proof. reflexivity. Qed.

Lemma search_BeginText k rest n : Regex.search (BeginText :: k) rest (S n) = [].
Proof.
  revert n; induction rest as [|c rest IH]; intros n; simpl; [reflexivity|apply IH].
Qed.

(** The leading-digit test holds of the strings whose first byte is a digit. *)
Lemma leadingDigit_spec s :
  MatchString leadingDigitRe s =
  match s with String c _ => is_digit c | EmptyString => false end.
Proof.
  destruct s as [|c s]; [reflexivity|].
  unfold MatchString, leadingDigitRe, MustCompile, doExecute, One.
  cbn [String.length Nat.ltb Nat.leb list_ascii_of_string List.skipn].
  cbn [Regex.search Regex.match_here Nat.eqb Regex.count_leading].
  destruct (is_digit c); cbn; [reflexivity|].
  now rewrite search_BeginText.
Qed.

Lemma str_take_length n s : (n <= String.length s)%nat -> String.length (str_take n s) = n.
Proof.
  revert s; induction n as [|n IH]; intros [|c s]; simpl; intros Hn; try lia.
  rewrite IH; lia.
Qed.

Lemma Sprintf_r_hex_md5_length s : String.length (Sprintf_r_hex_md5 s) = 33%nat.
Proof.
  unfold Sprintf_r_hex_md5.
  change (S (String.length (MD5.hex (MD5.Sum (MD5.bytes_of_string s)))) = 33%nat).
  now rewrite hex_length, Sum_length.
Qed.

(** The names that the tests of the repository expect. *)
Example ResourceName_drops_uuid :
  ResourceName fresh_context
    (named "9721431b_bcd3_4526_b90f_f5de2befec8c-dbutils_extensions_2_11_0_0_1-18dc8.jar")
  = "dbutils_extensions_2_11_0_0_1_18dc8_jar".
Proof. vm_compute. reflexivity. Qed.

Example ResourceName_hashes_numeric :
  ResourceName fresh_context (named "9721431b_bcd3_4526_b90f_f5de2befec8c|8737798193")
  = "r56cde0f5eda".
Proof. vm_compute. reflexivity. Qed.

(** Two raw names that differ only in case and do not fall back to the
    hash get one and the same final name. *)
Lemma ResourceName_case_collision :
  ~ (forall n1 n2 : string,
       n1 <> n2 -> ToLower n1 = ToLower n2 ->
       ResourceName fresh_context (named n1) <> ResourceName fresh_context (named n2)).
Proof.
  intros Hall. apply (Hall "Ab" "ab"); [discriminate | reflexivity |].
  vm_compute. reflexivity.
Qed.

(** C4 (as amended). With the fixes of the package and an empty prefix,
    [ResourceName] maps the raw name "General Policy - All Users" to
    "general_policy_all_users".  For every resource whose normalized name
    is empty or begins with a digit, the result is the first twelve
    characters of "r" followed by the hexadecimal MD5 digest of the
    original-case name (of the id when the normalized name is empty), and
    it has twelve characters.  The raw names "0A" and "0a", which
    lower-case to the same string and fall back to the hash, get
    different final names. *)
Theorem ResourceName_naming :
  (forall ic r,
     nameFixes ic = package_nameFixes -> prefix ic = EmptyString ->
     Name r = "General Policy - All Users" ->
     ResourceName ic r = "general_policy_all_users")
  /\ (forall ic r,
        normalizedName ic r = EmptyString
        \/ (exists c rest, normalizedName ic r = String c rest /\ is_digit c = true) ->
        ResourceName ic r =
          str_slice 0 12
            (Sprintf_r_hex_md5
               (if is_empty (normalizedName ic r) then ID r
                else prefix ic +:+ rawName ic r))
        /\ String.length (ResourceName ic r) = 12%nat)
  /\ (forall ic r1 r2,
        nameFixes ic = package_nameFixes -> prefix ic = EmptyString ->
        Name r1 = "0A" -> Name r2 = "0a" ->
        ToLower (Name r1) = ToLower (Name r2)
        /\ ResourceName ic r1 <> ResourceName ic r2).
Proof.
  assert (Hnorm : forall ic r n,
            nameFixes ic = package_nameFixes -> prefix ic = EmptyString ->
            Name r = n -> is_empty n = false ->
            normalizedName ic r = ic_regexFix (ToLower n) package_nameFixes
            /\ prefix ic +:+ rawName ic r = n).
  { intros ic r n Hf Hp Hn He. unfold normalizedName, rawName.
    rewrite Hf, Hp, Hn, He. cbn [String.append]. now rewrite He. }
  split; [|split].
  - intros ic r Hf Hp Hn. rewrite ResourceName_unfold.
    destruct (Hnorm ic r _ Hf Hp Hn eq_refl) as [-> _].
    vm_compute. reflexivity.
  - intros ic r Hfall. rewrite ResourceName_unfold. cbn zeta.
    assert (Hc : MatchString leadingDigitRe (normalizedName ic r)
                 || is_empty (normalizedName ic r) = true).
    { rewrite leadingDigit_spec.
      destruct Hfall as [-> | (c & rest & -> & Hd)]; [reflexivity|].
      now rewrite Hd. }
    rewrite Hc. split; [reflexivity|].
    unfold str_slice. apply str_take_length. cbn [str_drop].
    rewrite Sprintf_r_hex_md5_length. lia.
  - intros ic r1 r2 Hf Hp H1 H2. split; [now rewrite H1, H2|].
    rewrite !ResourceName_unfold.
    destruct (Hnorm ic r1 _ Hf Hp H1 eq_refl) as [-> ->].
    destruct (Hnorm ic r2 _ Hf Hp H2 eq_refl) as [-> ->].
    vm_compute. discriminate.
Qed.

Lemma ResourceName_naming_witness :
  ResourceName fresh_context (named "General Policy - All Users") = "general_policy_all_users"
  /\ ResourceName fresh_context (named "12 Monkeys") = "r8e0f4a822d4"
  /\ ResourceName fresh_context (named "0A") <> ResourceName fresh_context (named "0a").
Proof.
  destruct ResourceName_naming as (Hgen & Hfall & Hcase).
  split; [|split].
  - apply Hgen; reflexivity.
  - destruct (Hfall fresh_context (named "12 Monkeys")) as [-> _].
    + right. exists "1"%char, "2_monkeys". split; vm_compute; reflexivity.
    + vm_compute. reflexivity.
  - apply (Hcase fresh_context (named "0A") (named "0a")); reflexivity.
Defined.

(** ** The reference resolver *)

Lemma append_assoc_s (a b c : string) : (a +:+ b) +:+ c = a +:+ (b +:+ c).
Proof. induction a as [|x a IH]; [reflexivity|]. rewrite !String_app. now rewrite IH. Qed.

Lemma ReplaceAll1_app a b old new :
  ReplaceAll1 (a +:+ b) old new = ReplaceAll1 a old new +:+ ReplaceAll1 b old new.
Proof.
  induction a as [|x a IH]; [reflexivity|].
  rewrite String_app. simpl. now rewrite IH, append_assoc_s.
Qed.

Lemma maybeAddQuoteCharacter_cons c s :
  maybeAddQuoteCharacter (String c s) = escaped c +:+ maybeAddQuoteCharacter s.
Proof.
  unfold maybeAddQuoteCharacter, escaped. cbn [ReplaceAll1].
  rewrite ReplaceAll1_app. f_equal.
  destruct (Ascii.eqb c backslash) eqn:Eb; [reflexivity|].
  destruct (Ascii.eqb c dquote) eqn:Eq; simpl; now rewrite Eq.
Qed.

(** Reading the literal that [maybeAddQuoteCharacter] wrote gives the
    text back. *)
Lemma unquoteLit_maybeAddQuoteCharacter s : unquoteLit (maybeAddQuoteCharacter s) = s.
Proof.
  assert (Hesc : forall c rest, unquoteLit (escaped c +:+ rest) = String c (unquoteLit rest)).
  { intros c rest. unfold escaped.
    destruct (Ascii.eqb c backslash) eqn:Eb.
    - apply Ascii.eqb_eq in Eb; subst c. reflexivity.
    - destruct (Ascii.eqb c dquote) eqn:Eq.
      + apply Ascii.eqb_eq in Eq; subst c. reflexivity.
      + change (str1 c +:+ rest) with (String c rest). simpl. now rewrite Eb. }
  induction s as [|c s IH]; [reflexivity|].
  now rewrite maybeAddQuoteCharacter_cons, Hesc, IH.
Qed.

Lemma scan_instances_prefix_first value mv attr ipre i ipost c :
  no_prefix_match value attr ipre ->
  inst_Attributes i !! attr = Some c -> HasPrefix value c = true ->
  scan_instances MatchPrefix value mv attr (ipre ++ i :: ipost) = Some c.
Proof.
  intros Hpre Hi Hc. induction Hpre as [|j ipre Hj _ IH]; simpl.
  - now rewrite Hi, Hc.
  - destruct (inst_Attributes j !! attr) as [cj|] eqn:Ej; [|exact IH].
    now rewrite (Hj cj eq_refl).
Qed.

Lemma scan_instances_prefix_none value mv attr insts :
  no_prefix_match value attr insts ->
  scan_instances MatchPrefix value mv attr insts = None.
Proof.
  induction 1 as [|j insts Hj _ IH]; simpl; [reflexivity|].
  destruct (inst_Attributes j !! attr) as [cj|] eqn:Ej; [|exact IH].
  now rewrite (Hj cj eq_refl).
Qed.

Lemma scan_resources_prefix_first value mv attr pre sr post ipre i ipost c :
  Forall (fun sr' => no_prefix_match value attr (sr_Instances sr')) pre ->
  sr_Instances sr = ipre ++ i :: ipost ->
  no_prefix_match value attr ipre ->
  inst_Attributes i !! attr = Some c -> HasPrefix value c = true ->
  scan_resources MatchPrefix value mv attr (pre ++ sr :: post) = Some (c, sr).
Proof.
  intros Hpre Hsr Hipre Hi Hc. induction Hpre as [|sr' pre Hsr' _ IH]; simpl.
  - now rewrite Hsr, (scan_instances_prefix_first _ _ _ _ _ _ _ Hipre Hi Hc).
  - now rewrite (scan_instances_prefix_none _ _ _ _ Hsr').
Qed.

(** What the scan finds is the value of an instance of one of the
    resources scanned, and the queried value starts with it. *)
Lemma scan_instances_prefix_sound value mv attr insts c :
  scan_instances MatchPrefix value mv attr insts = Some c ->
  HasPrefix value c = true
  /\ exists i, i ∈ insts /\ inst_Attributes i !! attr = Some c.
Proof.
  induction insts as [|j insts IH]; simpl; [discriminate|].
  destruct (inst_Attributes j !! attr) as [cj|] eqn:Ej.
  - destruct (HasPrefix value cj) eqn:Hp.
    + intros [= <-]. split; [assumption|]. exists j. split; [left|assumption].
    + intros Hs. destruct (IH Hs) as (Hc & i & Hin & Hi). split; [assumption|].
      exists i. split; [now right|assumption].
  - intros Hs. destruct (IH Hs) as (Hc & i & Hin & Hi). split; [assumption|].
    exists i. split; [now right|assumption].
Qed.

Lemma scan_resources_prefix_sound value mv attr srs c sr :
  scan_resources MatchPrefix value mv attr srs = Some (c, sr) ->
  sr ∈ srs /\ HasPrefix value c = true
  /\ exists i, i ∈ sr_Instances sr /\ inst_Attributes i !! attr = Some c.
Proof.
  induction srs as [|sr' srs IH]; simpl; [discriminate|].
  destruct (scan_instances _ _ _ _ (sr_Instances sr')) as [c'|] eqn:Es.
  - intros [= <- <-]. split; [left|]. now apply scan_instances_prefix_sound in Es.
  - intros Hs. destruct (IH Hs) as (Hin & Hrest). split; [now right|assumption].
Qed.

Section ResolverFacts.
Context `{Env}.

(** With the prefix policy [Find] goes straight to the scan. *)
Lemma Find_prefix ic r pick ref :
  ref_MatchType ref = MatchPrefix ->
  Find ic r pick ref =
  match scan_resources MatchPrefix (Value r) EmptyString (Attribute r)
          (State_Resources (State ic) (Resource r)) with
  | Some (strValue, sr) => (strValue, Some (genTraversalTokens sr pick))
  | None => (EmptyString, None)
  end.
Proof. intros Hmt. unfold Find. now rewrite Hmt. Qed.

Lemma slice_from_prefix value c :
  HasPrefix value c = true ->
  slice_from value (Z.of_nat (String.length c)) = Ok (str_drop (String.length c) value).
Proof.
  intros Hp. unfold slice_from.
  assert (Hlen : (String.length c <= String.length value)%nat).
  { rewrite <- (HasPrefix_take _ _ Hp) at 1.
    clear. generalize (String.length c) as n. intros n. revert value.
    induction n as [|n IH]; intros [|x v]; simpl; try lia. specialize (IH v). lia. }
  replace (0 <=? Z.of_nat (String.length c))%Z with true by (symmetry; apply Z.leb_le; lia).
  replace (Z.of_nat (String.length c) <=? Z.of_nat (String.length value))%Z with true
    by (symmetry; apply Z.leb_le; lia).
  now rewrite Nat2Z.id.
Qed.

End ResolverFacts.

Section PrefixResolution.
Context `{Env}.

(** C3 (as amended). Prefix resolution goes by the linear scan alone and
    takes the first match.  For every queried value [value], if [i] is
    the first instance, in the order of the scan over the resources of the
    target kind, whose value [c] for the target attribute is such that
    [value] starts with [c], then [Find] returns [c] as the matched
    portion with the traversal to the resource of [i], and
    [getTraversalTokens] returns the template made of the interpolated
    reference followed by the quoted literal of the suffix, the suffix
    being [value] without its first [len(c)] bytes; [c] followed by the
    suffix is [value], and reading the quoted literal gives the suffix
    back. *)
Theorem prefix_resolution (ic : importContext) (ref : reference) (value : string)
    (pre : list resourceApproximation) (sr : resourceApproximation)
    (post : list resourceApproximation)
    (ipre : list instanceApproximation) (i : instanceApproximation)
    (ipost : list instanceApproximation) (c : string) :
  ref_MatchType ref = MatchPrefix ->
  MatchTypeValue ref = MatchPrefix ->
  State_Resources (State ic) (ref_Resource ref) = pre ++ sr :: post ->
  sr_Instances sr = ipre ++ i :: ipost ->
  Forall (fun sr' => no_prefix_match value (MatchAttribute ref) (sr_Instances sr')) pre ->
  no_prefix_match value (MatchAttribute ref) ipre ->
  inst_Attributes i !! MatchAttribute ref = Some c ->
  HasPrefix value c = true ->
  let suffix := str_drop (String.length c) value in
  Find ic (lookupResource ref value) (MatchAttribute ref) ref
    = (c, Some (genTraversalTokens sr (MatchAttribute ref)))
  /\ getTraversalTokens ic ref value
     = Ok (Some (prefixTemplate (genTraversalTokens sr (MatchAttribute ref)) suffix))
  /\ c +:+ suffix = value
  /\ unquoteLit (maybeAddQuoteCharacter suffix) = suffix.
Proof.
  intros Hmt Hmtv Hres Hinst Hpre Hipre Hi Hc suffix.
  assert (HF : Find ic (lookupResource ref value) (MatchAttribute ref) ref
               = (c, Some (genTraversalTokens sr (MatchAttribute ref)))).
  { rewrite Find_prefix by assumption. cbn [lookupResource Value Attribute Resource].
    rewrite Hres.
    now rewrite (scan_resources_prefix_first _ _ _ _ _ _ _ _ _ _ Hpre Hinst Hipre Hi Hc). }
  split; [exact HF|]. split; [|split].
  - unfold getTraversalTokens. fold (lookupResource ref value). rewrite HF, Hmtv.
    rewrite (slice_from_prefix _ _ Hc). reflexivity.
  - now apply HasPrefix_split.
  - apply unquoteLit_maybeAddQuoteCharacter.
Qed.

End PrefixResolution.

(** With two candidates whose values both begin the queried value, the
    resolver does not return the second one. *)
Lemma prefix_resolution_not_every_candidate :
  ~ (forall (ic : importContext) (ref : reference) (value : string)
            (sr : resourceApproximation) (i : instanceApproximation) (c : string),
       ref_MatchType ref = MatchPrefix ->
       MatchTypeValue ref = MatchPrefix ->
       sr ∈ State_Resources (State ic) (ref_Resource ref) ->
       i ∈ sr_Instances sr ->
       inst_Attributes i !! MatchAttribute ref = Some c ->
       HasPrefix value c = true ->
       Find ic (lookupResource ref value) (MatchAttribute ref) ref
         = (c, Some (genTraversalTokens sr (MatchAttribute ref)))
       /\ getTraversalTokens ic ref value
          = Ok (Some (prefixTemplate (genTraversalTokens sr (MatchAttribute ref))
                        (str_drop (String.length c) value)))).
Proof.
  intros Hall.
  assert (Hsr : approximation_b
                ∈ State_Resources (State two_repos) (ref_Resource by_path_prefix)).
  { apply list_elem_of_In. vm_compute. right. left. reflexivity. }
  assert (Hi : {| inst_Attributes := <["id" := "2"]> {[ "path" := "foo" ]} |}
               ∈ sr_Instances approximation_b).
  { apply list_elem_of_In. left. reflexivity. }
  destruct (Hall two_repos by_path_prefix "foo-suffix" approximation_b _ "foo"
              eq_refl eq_refl Hsr Hi eq_refl eq_refl) as [HF _].
  vm_compute in HF. discriminate HF.
Qed.

Lemma prefix_resolution_witness :
  getTraversalTokens one_repo by_path_prefix "foo-suffix"
  = Ok (Some (prefixTemplate
                [ TraverseRoot "databricks_repo"; TraverseAttr "b"; TraverseAttr "path" ]
                "-suffix"))
  /\ "foo" +:+ "-suffix" = "foo-suffix".
Proof.
  destruct (prefix_resolution one_repo by_path_prefix "foo-suffix"
              [] approximation_b [] []
              {| inst_Attributes := <["id" := "2"]> {[ "path" := "foo" ]} |} [] "foo")
    as (_ & Htok & Hcat & _);
    [ reflexivity | reflexivity | vm_compute; reflexivity | reflexivity
    | constructor | constructor | reflexivity | reflexivity | ].
  split; [exact Htok | exact Hcat].
Defined.

Section RegexpResolution.
Context `{Env}.

(** With the regexp policy [Find] looks the first group up directly. *)
Lemma Find_regexp ic r pick ref re :
  ref_MatchType ref = MatchRegexp -> ref_Regexp ref = Some re ->
  (2 <= length (FindStringSubmatch re (Value r)))%nat ->
  Find ic r pick ref =
  let captured := List.nth 1 (FindStringSubmatch re (Value r)) EmptyString in
  match State_Get (State ic) (Resource r) (Attribute r) captured with
  | Some sr => (captured, Some (genTraversalTokens sr pick))
  | None => (EmptyString, None)
  end.
Proof.
  intros Hmt Hre Hlen. unfold Find. rewrite Hmt, Hre.
  destruct (length _ <? 2)%nat eqn:E; [apply Nat.ltb_lt in E; lia|reflexivity].
Qed.

(** C6. For every reference with the regexp policy: without a pattern,
    and with a pattern that gives fewer than two submatches (no match, or
    no capture group), the resolver returns no match.  Otherwise the text
    of the first group is looked up directly in the State Approximation,
    and a failed lookup is no match.  A successful lookup yields a
    template only when the match reports exactly four offsets, that is,
    when the pattern has a single capture group: with the group at the
    bytes [lo..hi] of the value, the literals of the template are the
    bytes of the value before [lo] and from [hi] on, around the
    interpolated reference; these two and the captured text make up the
    value, and reading the quoted literals gives them back.  When the
    match reports another number of offsets, as with two capture groups,
    the resolver returns no match even after a successful lookup. *)
Theorem regexp_resolution (ic : importContext) (ref : reference) (value : string) :
  ref_MatchType ref = MatchRegexp ->
  MatchTypeValue ref = MatchRegexp ->
  (ref_Regexp ref = None -> getTraversalTokens ic ref value = Ok None)
  /\ (forall re, ref_Regexp ref = Some re ->
        (length (FindStringSubmatch re value) < 2)%nat ->
        getTraversalTokens ic ref value = Ok None)
  /\ (forall re, ref_Regexp ref = Some re ->
        (2 <= length (FindStringSubmatch re value))%nat ->
        let captured := List.nth 1 (FindStringSubmatch re value) EmptyString in
        Find ic (lookupResource ref value) (MatchAttribute ref) ref
          = match State_Get (State ic) (ref_Resource ref) (MatchAttribute ref) captured with
            | Some sr => (captured, Some (genTraversalTokens sr (MatchAttribute ref)))
            | None => (EmptyString, None)
            end
        /\ (State_Get (State ic) (ref_Resource ref) (MatchAttribute ref) captured = None ->
            getTraversalTokens ic ref value = Ok None))
  /\ (forall re m0 m1 lo hi sr,
        ref_Regexp ref = Some re ->
        FindStringSubmatchIndex re value = [ m0; m1; Z.of_nat lo; Z.of_nat hi ] ->
        (lo <= hi <= String.length value)%nat ->
        State_Get (State ic) (ref_Resource ref) (MatchAttribute ref) (str_slice lo hi value)
          = Some sr ->
        getTraversalTokens ic ref value
          = Ok (Some (regexpTemplate (genTraversalTokens sr (MatchAttribute ref))
                        (str_take lo value) (str_drop hi value)))
        /\ str_take lo value +:+ str_slice lo hi value +:+ str_drop hi value = value
        /\ unquoteLit (maybeAddQuoteCharacter (str_take lo value)) = str_take lo value
        /\ unquoteLit (maybeAddQuoteCharacter (str_drop hi value)) = str_drop hi value)
  /\ (forall re sr,
        ref_Regexp ref = Some re ->
        (2 <= length (FindStringSubmatch re value))%nat ->
        State_Get (State ic) (ref_Resource ref) (MatchAttribute ref)
          (List.nth 1 (FindStringSubmatch re value) EmptyString) = Some sr ->
        length (FindStringSubmatchIndex re value) <> 4%nat ->
        Find ic (lookupResource ref value) (MatchAttribute ref) ref
          = (List.nth 1 (FindStringSubmatch re value) EmptyString,
             Some (genTraversalTokens sr (MatchAttribute ref)))
        /\ getTraversalTokens ic ref value = Ok None).
Proof.
  intros Hmt Hmtv. split; [|split; [|split; [|split]]].
  - intros Hre. unfold getTraversalTokens, Find. cbn [Value]. now rewrite Hmt, Hre.
  - intros re Hre Hlen. unfold getTraversalTokens, Find. cbn [Value]. rewrite Hmt, Hre.
    apply Nat.ltb_lt in Hlen. now rewrite Hlen.
  - intros re Hre Hlen captured.
    pose proof (Find_regexp ic (lookupResource ref value) (MatchAttribute ref) ref re
                  Hmt Hre Hlen) as HF.
    cbn [lookupResource Value Attribute Resource] in HF. fold captured in HF.
    split; [exact HF|].
    intros Hget. unfold getTraversalTokens. fold (lookupResource ref value).
    rewrite HF, Hget. reflexivity.
  - intros re m0 m1 lo hi sr Hre Hidx Hrange Hget.
    assert (Hsub : FindStringSubmatch re value
                   = [ (if (0 <=? m0)%Z then str_slice (Z.to_nat m0) (Z.to_nat m1) value
                        else EmptyString);
                       str_slice lo hi value ]).
    { unfold FindStringSubmatch. unfold FindStringSubmatchIndex in Hidx. rewrite Hidx.
      cbn [submatches].
      replace (0 <=? Z.of_nat lo)%Z with true by (symmetry; apply Z.leb_le; lia).
      now rewrite !Nat2Z.id. }
    assert (HF : Find ic (lookupResource ref value) (MatchAttribute ref) ref
                 = (str_slice lo hi value, Some (genTraversalTokens sr (MatchAttribute ref)))).
    { rewrite (Find_regexp _ _ _ _ re Hmt Hre);
        cbn [lookupResource Value Attribute Resource]; rewrite Hsub; [|simpl; lia].
      cbn [List.nth]. now rewrite Hget. }
    split; [|split; [|split]].
    + unfold getTraversalTokens. fold (lookupResource ref value).
      rewrite HF, Hmtv, Hre, Hidx.
      unfold slice_to, slice_from.
      replace (0 <=? Z.of_nat lo)%Z with true by (symmetry; apply Z.leb_le; lia).
      replace (Z.of_nat lo <=? Z.of_nat (String.length value))%Z with true
        by (symmetry; apply Z.leb_le; lia).
      replace (0 <=? Z.of_nat hi)%Z with true by (symmetry; apply Z.leb_le; lia).
      replace (Z.of_nat hi <=? Z.of_nat (String.length value))%Z with true
        by (symmetry; apply Z.leb_le; lia).
      rewrite !Nat2Z.id. reflexivity.
    + apply str_slice_split; lia.
    + apply unquoteLit_maybeAddQuoteCharacter.
    + apply unquoteLit_maybeAddQuoteCharacter.
  - intros re sr Hre Hlen Hget Hidx.
    assert (HF : Find ic (lookupResource ref value) (MatchAttribute ref) ref
                 = (List.nth 1 (FindStringSubmatch re value) EmptyString,
                    Some (genTraversalTokens sr (MatchAttribute ref)))).
    { rewrite (Find_regexp _ _ _ _ re Hmt Hre);
        cbn [lookupResource Value Attribute Resource]; [|exact Hlen].
      cbn zeta. now rewrite Hget. }
    split; [exact HF|].
    unfold getTraversalTokens. fold (lookupResource ref value).
    rewrite HF, Hmtv, Hre.
    destruct (FindStringSubmatchIndex re value) as [|i0 [|i1 [|i2 [|i3 [|i4 rest]]]]];
      try reflexivity.
    now destruct Hidx.
Qed.

End RegexpResolution.

Lemma regexp_resolution_witness :
  getTraversalTokens one_job by_job_number "/jobs/42/runs"
  = Ok (Some (regexpTemplate
                [ TraverseRoot "databricks_job"; TraverseAttr "nightly"; TraverseAttr "id" ]
                "/jobs/" "/runs"))
  /\ "/jobs/" +:+ "42" +:+ "/runs" = "/jobs/42/runs".
Proof.
  destruct (regexp_resolution one_job by_job_number "/jobs/42/runs")
    as (_ & _ & _ & Hone & _); [reflexivity | reflexivity |].
  destruct (Hone job_number 5%Z 9%Z 6%nat 8%nat approximation_job)
    as (Htok & Hcat & _);
    [ reflexivity | vm_compute; reflexivity | simpl; lia | vm_compute; reflexivity | ].
  split; [exact Htok | exact Hcat].
Defined.

(** It is not so that, for every reference with the regexp policy, a
    successful lookup of the first captured text yields a template: with
    a pattern that has two capture groups the match reports six offsets,
    and the resolver returns no match although the job is found. *)
Lemma regexp_resolution_two_groups :
  ~ (forall (ic : importContext) (ref : reference) (value : string) (re : Regexp)
            (sr : resourceApproximation),
       ref_MatchType ref = MatchRegexp ->
       MatchTypeValue ref = MatchRegexp ->
       ref_Regexp ref = Some re ->
       (2 <= length (FindStringSubmatch re value))%nat ->
       State_Get (State ic) (ref_Resource ref) (MatchAttribute ref)
         (List.nth 1 (FindStringSubmatch re value) EmptyString) = Some sr ->
       exists before after,
         getTraversalTokens ic ref value
         = Ok (Some (regexpTemplate (genTraversalTokens sr (MatchAttribute ref))
                       before after))).
Proof.
  intros Hall.
  destruct (Hall one_job by_job_and_run_number "/42/7" job_and_run_number approximation_job)
    as (before & after & Htok);
    [ reflexivity | reflexivity | reflexivity | vm_compute; lia | vm_compute; reflexivity | ].
  vm_compute in Htok. discriminate.
Qed.

Section ReferenceFacts.
Context `{Env}.

(** The loop of [reference] passes over the declarations of other paths. *)
Lemma reference_loop_skip ic pre rest match_ path value cty :
  Forall (fun d => ref_Path d <> match_) pre ->
  reference_loop ic (pre ++ rest) match_ path value cty
  = reference_loop ic rest match_ path value cty.
Proof.
  induction 1 as [|d pre Hd _ IH]; [reflexivity|].
  cbn [app reference_loop].
  destruct (String.eqb (ref_Path d) match_) eqn:E; [|exact IH].
  apply String.eqb_eq in E. contradiction.
Qed.

(** C7. Let [d] be the declaration of the kind that matches the path of
    the field, the first one with that path.  If [d] is flagged as
    file-backed, [reference] returns the quoted string
    [${path.module}/value], whatever the State Approximation holds, and
    leaves the context as it is: no lookup takes place.  If [d] is flagged
    as a variable (and not as file-backed), the variable named by the
    first element of the path, an underscore and the value is registered
    in the variables map with an empty description, and the traversal
    [var.name] is returned in place of the literal. *)
Theorem reference_edge_cases (ic : importContext) (i : importable) (path : list string)
    (value : string) (cty : ctyValue)
    (pre : list reference) (d : reference) (post : list reference) :
  Depends i = pre ++ d :: post ->
  Forall (fun d' => ref_Path d' <> ReplaceAllString dependsRe (Join path ".") EmptyString) pre ->
  ref_Path d = ReplaceAllString dependsRe (Join path ".") EmptyString ->
  (ref_File d = true ->
   forall st,
     ic_reference (set_State st ic) i path value cty
     = Ok ([ mkToken TokenOQuote (str1 dquote);
             mkToken TokenQuotedLit ("${path.module}/" +:+ value);
             mkToken TokenCQuote (str1 dquote) ], set_State st ic))
  /\ (ref_File d = false -> ref_Variable d = true ->
      forall p0 rest, path = p0 :: rest ->
        let name := p0 +:+ "_" +:+ value in
        ic_reference ic i path value cty
        = Ok (TokensForTraversal [ TraverseRoot "var"; TraverseAttr name ],
              set_variables (<[name := EmptyString]> (variables ic)) ic)).
Proof.
  intros Hdep Hpre Hd. split.
  - intros Hfile st. unfold ic_reference. rewrite Hdep, (reference_loop_skip _ _ _ _ _ _ _ Hpre).
    cbn [reference_loop]. rewrite Hd, String.eqb_refl, Hfile. reflexivity.
  - intros Hfile Hvar p0 rest Hpath name. unfold ic_reference.
    rewrite Hdep, (reference_loop_skip _ _ _ _ _ _ _ Hpre).
    cbn [reference_loop]. rewrite Hd, String.eqb_refl, Hfile, Hvar. cbn [negb].
    rewrite Hpath. reflexivity.
Qed.

End ReferenceFacts.

Lemma reference_edge_cases_witness :
  ic_reference two_repos with_file_and_variable [ "source" ] "init.sh" (StringVal "init.sh")
  = Ok (fileTokens "init.sh", two_repos)
  /\ ic_reference fresh_context with_file_and_variable [ "tokens"; "0"; "value" ]
       "secret" (StringVal "secret")
     = Ok (TokensForTraversal [ TraverseRoot "var"; TraverseAttr "tokens_secret" ],
           set_variables (<["tokens_secret" := EmptyString]> ∅) fresh_context).
Proof.
  split.
  - destruct (reference_edge_cases two_repos with_file_and_variable [ "source" ] "init.sh"
                (StringVal "init.sh") [] _ _ eq_refl) as [Hfile _];
      [ constructor | reflexivity | ].
    exact (Hfile eq_refl (State two_repos)).
  - destruct (reference_edge_cases fresh_context with_file_and_variable
                [ "tokens"; "0"; "value" ] "secret" (StringVal "secret")
                [ _ ] _ _ eq_refl) as [_ Hvar].
    + constructor; [vm_compute; discriminate | constructor].
    + vm_compute. reflexivity.
    + exact (Hvar eq_refl eq_refl "tokens" [ "0"; "value" ] eq_refl).
Defined.

(** ** The order of the generic projection *)

Lemma str_lt_compare a b : str_lt a b <-> String.compare a b = Lt.
Proof. unfold str_lt, String.ltb. destruct (String.compare a b); split; congruence. Qed.

Lemma str_lt_irrefl a : ~ str_lt a a.
Proof.
  rewrite str_lt_compare. intros Hlt.
  pose proof (String.compare_antisym a a) as Ha. rewrite Hlt in Ha. discriminate.
Qed.

Lemma str_lt_trans a b c : str_lt a b -> str_lt b c -> str_lt a c.
Proof.
  rewrite !str_lt_compare. revert b c.
  induction a as [|x a IH]; intros [|y b] [|z c]; simpl; try congruence.
  unfold Ascii.compare.
  destruct (N.compare_spec (N_of_ascii x) (N_of_ascii y)) as [Exy|Lxy|Gxy];
    try discriminate;
    destruct (N.compare_spec (N_of_ascii y) (N_of_ascii z)) as [Eyz|Lyz|Gyz];
    try discriminate; intros Hab Hbc.
  - rewrite Exy, Eyz, N.compare_refl. now apply (IH b c).
  - rewrite Exy. now apply N.compare_lt_iff in Lyz as ->.
  - rewrite <- Eyz. now apply N.compare_lt_iff in Lxy as ->.
  - assert (Hxz : (N_of_ascii x < N_of_ascii z)%N) by lia.
    now apply N.compare_lt_iff in Hxz as ->.
Qed.

Lemma str_lt_total a b : a <> b -> str_lt a b \/ str_lt b a.
Proof.
  intros Hne. rewrite !str_lt_compare.
  destruct (String.compare a b) eqn:E.
  - now apply String.compare_eq_iff in E.
  - now left.
  - right. rewrite String.compare_antisym, E. reflexivity.
Qed.

Lemma field_gt_trans x y z : field_gt x y -> field_gt y z -> field_gt x z.
Proof. unfold field_gt, fieldGreater. intros Hxy Hyz. exact (str_lt_trans _ _ _ Hyz Hxy). Qed.

Lemma field_gt_asym x y : field_gt x y -> field_gt y x -> False.
Proof.
  unfold field_gt, fieldGreater. intros Hxy Hyx.
  exact (str_lt_irrefl _ (str_lt_trans _ _ _ Hxy Hyx)).
Qed.

Lemma field_gt_total x y : Field x <> Field y -> field_gt x y \/ field_gt y x.
Proof.
  unfold field_gt, fieldGreater. intros Hne.
  destruct (str_lt_total (Field x) (Field y) Hne); [now right | now left].
Qed.

Lemma insert_sorted_Permutation {A} (less : A -> A -> bool) x l :
  insert_sorted less x l ≡ₚ x :: l.
Proof.
  induction l as [|y l IH]; simpl; [reflexivity|].
  destruct (less y x); [|reflexivity].
  rewrite IH. apply Permutation_swap.
Qed.

Lemma sort_Slice_Permutation {A} (less : A -> A -> bool) l : sort_Slice less l ≡ₚ l.
Proof.
  induction l as [|x l IH]; simpl; [reflexivity|].
  now rewrite insert_sorted_Permutation, IH.
Qed.

Lemma insert_sorted_StronglySorted x l :
  Forall (fun y => Field x <> Field y) l ->
  StronglySorted field_gt l ->
  StronglySorted field_gt (insert_sorted fieldGreater x l).
Proof.
  intros Hne Hs. induction Hs as [|y l Hs IH Hy]; simpl.
  - repeat constructor.
  - apply Forall_cons in Hne as [Hxy Hne].
    destruct (fieldGreater y x) eqn:E.
    + constructor; [now apply IH|].
      rewrite insert_sorted_Permutation. now constructor.
    + destruct (field_gt_total x y Hxy) as [Hgt|Hgt]; [|unfold field_gt in Hgt; congruence].
      constructor; [now constructor|].
      constructor; [assumption|].
      eapply Forall_impl; [exact Hy|]. intros z Hz. now apply (field_gt_trans x y z).
Qed.

Lemma sort_Slice_StronglySorted l :
  NoDup (List.map Field l) -> StronglySorted field_gt (sort_Slice fieldGreater l).
Proof.
  induction l as [|x l IH]; simpl; intros Hnd; [constructor|].
  apply NoDup_cons in Hnd as [Hx Hnd].
  apply insert_sorted_StronglySorted; [|now apply IH].
  rewrite sort_Slice_Permutation. apply Forall_forall. intros y Hy Heq.
  apply Hx. rewrite Heq. apply list_elem_of_In, in_map, list_elem_of_In, Hy.
Qed.

(** Sorting takes away the order in which the fields were collected. *)
Lemma sort_Slice_order_free l1 l2 :
  l1 ≡ₚ l2 -> NoDup (List.map Field l1) ->
  sort_Slice fieldGreater l1 = sort_Slice fieldGreater l2.
Proof.
  intros Hp Hnd.
  apply (StronglySorted_unique_strong field_gt).
  - intros x1 x2 _ _ H12 H21. destruct (field_gt_asym _ _ H12 H21).
  - now apply sort_Slice_StronglySorted.
  - apply sort_Slice_StronglySorted.
    now rewrite <- (Permutation_map Field Hp).
  - now rewrite !sort_Slice_Permutation.
Qed.

(** Whatever way a slice with distinct field names is sorted, the outcome
    is the one of the sort by insertion: a permutation in which no
    element is greater than the one before it. *)
Lemma sort_Slice_unique l out :
  NoDup (List.map Field l) -> out ≡ₚ l ->
  Sorted (fun x y => fieldGreater y x = false) out ->
  out = sort_Slice fieldGreater l.
Proof.
  intros Hnd Hp Hs.
  assert (Hnd' : NoDup (List.map Field out)) by now rewrite (Permutation_map Field Hp).
  assert (Hgt : Sorted field_gt out).
  { clear Hp Hnd. induction Hs as [|x out Hs IH Hhd]; [constructor|].
    simpl in Hnd'. apply NoDup_cons in Hnd' as [Hx Hnd'].
    constructor; [now apply IH|].
    destruct Hhd as [|y out' Hxy]; constructor.
    destruct (field_gt_total x y) as [Hgt|Hgt]; [|assumption|].
    - intros Heq. apply Hx. rewrite Heq. simpl. left.
    - unfold field_gt in Hgt. congruence. }
  apply (StronglySorted_unique_strong field_gt).
  - intros x1 x2 _ _ H12 H21. destruct (field_gt_asym _ _ H12 H21).
  - apply Sorted_StronglySorted; [|assumption].
    intros x y z. apply field_gt_trans.
  - now apply sort_Slice_StronglySorted.
  - now rewrite sort_Slice_Permutation.
Qed.

Lemma fieldTuples_names l : List.map Field (fieldTuples l) = l.*1.
Proof.
  induction l as [|[a s] l IH]; simpl; [reflexivity|]. now rewrite IH.
Qed.

Lemma range_names_NoDup range pr :
  range_complete range -> NoDup (List.map Field (fieldTuples (range pr))).
Proof.
  intros Hc. rewrite fieldTuples_names, (Hc pr). apply NoDup_fst_map_to_list.
Qed.

(** The sorted fields are the same for every order of the [range]. *)
Lemma sortedFields_order_free range range' pr :
  range_complete range -> range_complete range' ->
  sortedFields range' pr = sortedFields range pr.
Proof.
  intros Hc Hc'. unfold sortedFields. fold (fieldTuples (range' pr)) (fieldTuples (range pr)).
  apply sort_Slice_order_free; [|now apply range_names_NoDup].
  apply Permutation_map. now rewrite (Hc pr), (Hc' pr).
Qed.

Lemma StronglySorted_names l :
  StronglySorted field_gt l ->
  StronglySorted (fun a b => str_lt b a) (List.map Field l).
Proof.
  induction 1 as [|x l _ IH Hx]; simpl; constructor; [assumption|].
  apply Forall_forall. intros a Ha.
  apply list_elem_of_In, in_map_iff in Ha as (y & <- & Hy).
  rewrite Forall_forall in Hx. apply Hx, list_elem_of_In, Hy.
Qed.

(** ** The order of what the projection puts out *)

Lemma emitted_repeat a vs ns k :
  emitted_in_order vs ns -> emitted_in_order (a :: vs) (List.repeat a k ++ ns).
Proof.
  intros Hvs. induction k as [|k IH]; simpl; [now apply emitted_skip | now apply emitted_more].
Qed.

Lemma body_names_app b1 b2 : body_names (b1 ++ b2) = body_names b1 ++ body_names b2.
Proof. unfold body_names. apply List.map_app. Qed.

Lemma SetAttributeRaw_names a tokens body :
  exists k, body_names (SetAttributeRaw a tokens body) = body_names body ++ List.repeat a k.
Proof.
  unfold SetAttributeRaw. destruct (List.existsb _ body).
  - exists 0%nat. rewrite app_nil_r. unfold body_names.
    induction body as [|[n t|t l b] body IH]; simpl; [reflexivity| |now rewrite IH].
    rewrite IH. destruct (String.eqb n a) eqn:E; [|reflexivity].
    apply String.eqb_eq in E. now subst.
  - exists 1%nat. now rewrite body_names_app.
Qed.

Lemma last_path (path : list string) (a : string) :
  List.last (List.map Some (path ++ [a])) None = Some a.
Proof. rewrite List.map_app. apply List.last_last. Qed.

Section EmissionOrder.
Context `{Env}.

Lemma nested_blocks_names rec path name elem oc offsets body ic body' ic' :
  nested_blocks rec path name elem oc offsets body ic = Ok (body', ic') ->
  exists k, body_names body' = body_names body ++ List.repeat name k.
Proof.
  revert body ic. induction offsets as [|o offsets IH]; intros body ic; simpl.
  - intros [= <- <-]. exists 0%nat. now rewrite app_nil_r.
  - destruct (rec _ _ _ _) as [[inner ic1]| | |]; simpl; try discriminate.
    intros Hrest. destruct (IH _ _ Hrest) as [k Hk]. exists (S k).
    rewrite Hk. unfold AppendBlock. rewrite body_names_app, <- app_assoc. reflexivity.
Qed.

Lemma readListFromData_names rec ic i path a rawList body as_ oc body' ic' :
  readListFromData rec ic i (path ++ [a]) rawList body as_ oc = Ok (body', ic') ->
  exists k, body_names body' = body_names body ++ List.repeat a k.
Proof.
  unfold readListFromData. rewrite last_path.
  destruct (length rawList =? 0)%nat.
  { intros [= <- <-]. exists 0%nat. now rewrite app_nil_r. }
  destruct (s_Elem as_) as [|elem|s].
  - intros [= <- <-]. exists 0%nat. now rewrite app_nil_r.
  - destruct (s_MaxItems as_ =? 1)%Z.
    + destruct (rec _ _ _ _) as [[inner ic1]| | |]; simpl; try discriminate.
      intros [= <- <-]. exists 1%nat. unfold AppendBlock. now rewrite body_names_app.
    + apply nested_blocks_names.
  - destruct (primitive_list _ _ _ _ _) as [[toks ic1]| | |]; simpl; try discriminate.
    intros [= <- <-]. apply SetAttributeRaw_names.
Qed.

(** One field puts its own name into the body, any number of times. *)
Lemma visit_field_names rec i path d tuple body ic body' ic' :
  visit_field rec i path d tuple body ic = Ok (body', ic') ->
  exists k, body_names body' = body_names body ++ List.repeat (Field tuple) k.
Proof.
  assert (Hsame : exists k, body_names body = body_names body ++ List.repeat (Field tuple) k)
    by (exists 0%nat; now rewrite app_nil_r).
  unfold visit_field.
  destruct (rd_GetOk d _) as [raw nonZero].
  destruct (match ShouldOmitField i with Some _ => _ | None => _ end);
    [now intros [= <- <-]|].
  destruct (variable_override _ _ _ _ _) as [[raw' nonZero']| | |]; simpl; try discriminate.
  destruct (if s_Required _ then _ else _); [now intros [= <- <-]|].
  destruct (s_Type _); try discriminate.
  - destruct raw'; try discriminate. intros [= <- <-]. apply SetAttributeRaw_names.
  - destruct (ic_reference _ _ _ _ _) as [[tokens ic1]| | |]; simpl; try discriminate.
    intros [= <- <-]. apply SetAttributeRaw_names.
  - destruct raw'; try discriminate. intros [= <- <-]. apply SetAttributeRaw_names.
  - destruct raw'; try discriminate.
    destruct (ic_reference _ _ _ _ _) as [[tokens ic1]| | |]; simpl; try discriminate.
    intros [= <- <-]. apply SetAttributeRaw_names.
  - destruct raw'; try (now intros [= <- <-]). apply readListFromData_names.
  - destruct raw'; try discriminate. intros [= <- <-]. apply SetAttributeRaw_names.
  - destruct raw'; try (now intros [= <- <-]). apply readListFromData_names.
Qed.

Lemma visit_fields_names rec i path d ss body ic body' ic' :
  visit_fields rec i path d ss body ic = Ok (body', ic') ->
  exists ns, body_names body' = body_names body ++ ns
             /\ emitted_in_order (List.map Field ss) ns.
Proof.
  revert body ic. induction ss as [|t ss IH]; intros body ic; simpl.
  - intros [= <- <-]. exists []. split; [now rewrite app_nil_r | constructor].
  - destruct (visit_field _ _ _ _ _ _ _) as [[body1 ic1]| | |] eqn:E; simpl; try discriminate.
    intros Hrest. destruct (visit_field_names _ _ _ _ _ _ _ _ _ E) as [k Hk].
    destruct (IH _ _ Hrest) as (ns & Hns & Hord).
    exists (List.repeat (Field t) k ++ ns). split.
    + now rewrite Hns, Hk, <- app_assoc.
    + now apply emitted_repeat.
Qed.

(** The attributes and blocks that [dataToHcl] puts into an empty body
    stand in the order in which the fields are visited. *)
Lemma dataToHcl_emitted_in_order range fuel i d path pr ic body' ic' :
  dataToHcl range fuel i d path pr [] ic = Ok (body', ic') ->
  emitted_in_order (visitOrder range pr) (body_names body').
Proof.
  destruct fuel as [|fuel]; [discriminate|]. cbn [dataToHcl]. intros Hrun.
  destruct (visit_fields_names _ _ _ _ _ _ _ _ _ Hrun) as (ns & Hns & Hord).
  simpl in Hns. now rewrite Hns.
Qed.

End EmissionOrder.

Section ProjectionFacts.
Context `{Env}.

Lemma nested_blocks_ext rec1 rec2 path name elem oc offsets body ic :
  same_recursion rec1 rec2 ->
  nested_blocks rec1 path name elem oc offsets body ic
  = nested_blocks rec2 path name elem oc offsets body ic.
Proof.
  intros Hext. revert body ic.
  induction offsets as [|o offsets IH]; intros body ic; simpl; [reflexivity|].
  rewrite Hext. destruct (rec2 _ _ _ _) as [[inner ic']| | |]; simpl; auto.
Qed.

Lemma readListFromData_ext rec1 rec2 ic i path rawList body as_ oc :
  same_recursion rec1 rec2 ->
  readListFromData rec1 ic i path rawList body as_ oc
  = readListFromData rec2 ic i path rawList body as_ oc.
Proof.
  intros Hext. unfold readListFromData.
  destruct (length rawList =? 0)%nat; [reflexivity|].
  destruct (List.last _ _); [|reflexivity].
  destruct (s_Elem as_); [reflexivity| |reflexivity].
  destruct (s_MaxItems as_ =? 1)%Z.
  - now rewrite Hext.
  - now apply nested_blocks_ext.
Qed.

Lemma visit_field_ext rec1 rec2 i path d tuple body ic :
  same_recursion rec1 rec2 ->
  visit_field rec1 i path d tuple body ic = visit_field rec2 i path d tuple body ic.
Proof.
  intros Hext. unfold visit_field.
  destruct (rd_GetOk d _) as [raw nonZero].
  destruct (match ShouldOmitField i with Some _ => _ | None => _ end); [reflexivity|].
  destruct (variable_override _ _ _ _ _) as [[raw' nonZero']| | |]; simpl; try reflexivity.
  destruct (if s_Required _ then _ else _); [reflexivity|].
  destruct (s_Type _); try reflexivity;
    destruct raw'; try reflexivity; now apply readListFromData_ext.
Qed.

Lemma visit_fields_ext rec1 rec2 i path d ss body ic :
  same_recursion rec1 rec2 ->
  visit_fields rec1 i path d ss body ic = visit_fields rec2 i path d ss body ic.
Proof.
  intros Hext. revert body ic.
  induction ss as [|t ss IH]; intros body ic; simpl; [reflexivity|].
  rewrite (visit_field_ext rec1 rec2) by assumption.
  destruct (visit_field rec2 _ _ _ _ _ _) as [[body' ic']| | |]; simpl; auto.
Qed.

(** [dataToHcl] gives the same for every order of the [range], at every
    level of nesting. *)
Lemma dataToHcl_order_free range range' :
  range_complete range -> range_complete range' ->
  forall fuel i d path pr body ic,
    dataToHcl range' fuel i d path pr body ic = dataToHcl range fuel i d path pr body ic.
Proof.
  intros Hc Hc'. induction fuel as [|fuel IH]; intros i d path pr body ic; [reflexivity|].
  cbn [dataToHcl]. rewrite (sortedFields_order_free range range') by assumption.
  apply visit_fields_ext. intros p m b c. apply IH.
Qed.

(** C8. [dataToHcl] collects the fields of the schema map, sorts them, and
    visits them in the sorted order.  Whatever order the [range] over the
    schema map yields, that order holds every field of the schema once
    and is strictly descending in the byte order of the field names
    (reverse-lexicographic); the attributes and nested blocks put into an
    empty body stand in that order; and the order is the same for every
    order of the [range], and so is what [dataToHcl] returns: the body,
    with its attributes and nested blocks in sequence, is determined by
    the schema and the data. *)
Theorem dataToHcl_field_order (range : rangeOrder) (pr : gmap string Schema) :
  range_complete range ->
  (forall fuel i d path body ic,
     dataToHcl range (S fuel) i d path pr body ic
     = visit_fields (dataToHcl range fuel i d) i path d (sortedFields range pr) body ic)
  /\ visitOrder range pr ≡ₚ (map_to_list pr).*1
  /\ StronglySorted (fun a b => str_lt b a) (visitOrder range pr)
  /\ (forall fuel i d path ic body' ic',
        dataToHcl range fuel i d path pr [] ic = Ok (body', ic') ->
        emitted_in_order (visitOrder range pr) (body_names body'))
  /\ (forall range', range_complete range' ->
        visitOrder range' pr = visitOrder range pr
        /\ forall fuel i d path body ic,
             dataToHcl range' fuel i d path pr body ic
             = dataToHcl range fuel i d path pr body ic).
Proof.
  intros Hc. split; [reflexivity|]. split; [|split; [|split]].
  - unfold visitOrder, sortedFields. fold (fieldTuples (range pr)).
    rewrite sort_Slice_Permutation, fieldTuples_names. now rewrite (Hc pr).
  - unfold visitOrder, sortedFields. fold (fieldTuples (range pr)).
    apply StronglySorted_names, sort_Slice_StronglySorted. now apply range_names_NoDup.
  - intros fuel i d path ic body' ic'. apply dataToHcl_emitted_in_order.
  - intros range' Hc'. split.
    + unfold visitOrder. now rewrite (sortedFields_order_free range range').
    + intros fuel i d path body ic. apply (dataToHcl_order_free range range' Hc Hc').
Qed.

End ProjectionFacts.

Lemma range_forward_complete : range_complete range_forward.
Proof. intros m. reflexivity. Qed.

Lemma range_backward_complete : range_complete range_backward.
Proof. intros m. unfold range_backward. symmetry. apply Permutation_rev. Qed.

Example dataToHcl_cluster :
  (fun r => match r with Ok (body, _) => Some body | _ => None end)
    (dataToHcl range_backward 1 plain_kind cluster_data [] cluster_schema [] fresh_context)
  = Some [ BodyAttribute "num_workers" [ mkToken TokenNumberLit "2" ];
           BodyAttribute "cluster_name"
             [ mkToken TokenOQuote (str1 dquote); mkToken TokenQuotedLit "shared";
               mkToken TokenCQuote (str1 dquote) ] ].
Proof. vm_compute. reflexivity. Qed.

Lemma dataToHcl_field_order_witness :
  visitOrder range_forward cluster_schema = [ "spark_version"; "num_workers"; "cluster_name" ]
  /\ visitOrder range_backward cluster_schema = visitOrder range_forward cluster_schema
  /\ dataToHcl range_backward 1 plain_kind cluster_data [] cluster_schema [] fresh_context
     = dataToHcl range_forward 1 plain_kind cluster_data [] cluster_schema [] fresh_context.
Proof.
  destruct (dataToHcl_field_order range_forward cluster_schema range_forward_complete)
    as (_ & _ & _ & _ & Hfree).
  destruct (Hfree range_backward range_backward_complete) as [Horder Hsame].
  split; [vm_compute; reflexivity|]. split; [exact Horder | apply Hsame].
Defined.

(** ** The per-file writer *)

Lemma write_generated_spec ch pieces newResources imports wg :
  exists imports' wg',
    write_generated ch pieces newResources imports wg
    = (pieces ++ List.map Generated (generated_of ch),
       list_to_set (List.map BlockName (generated_of ch)) ∪ newResources,
       imports', wg').
Proof.
  revert pieces newResources imports wg.
  induction ch as [|[f|] ch IH]; intros pieces newResources imports wg.
  - exists imports, wg. simpl. now rewrite app_nil_r, (left_id_L ∅ (∪)).
  - assert (Hstep : forall im w, exists imports' wg',
              write_generated ch (pieces ++ [Generated f]) ({[BlockName f]} ∪ newResources) im w
              = (pieces ++ List.map Generated (generated_of (Some f :: ch)),
                 list_to_set (List.map BlockName (generated_of (Some f :: ch))) ∪ newResources,
                 imports', wg')).
    { intros im w. destruct (IH (pieces ++ [Generated f]) ({[BlockName f]} ∪ newResources) im w)
        as (im' & w' & ->).
      exists im', w'. unfold generated_of. cbn [omap list_omap id List.map list_to_set].
      rewrite <- app_assoc. cbn [app].
      now rewrite (assoc_L (∪)), (comm_L (∪) _ {[BlockName f]}). }
    cbn [write_generated]. destruct (negb (is_empty (ImportCommand f))); apply Hstep.
  - cbn [write_generated]. apply IH.
Qed.

Lemma merge_existing_spec blocks newResources kept n :
  merge_existing blocks newResources kept n
  = (kept ++ List.filter (fun b => negb (bool_decide (generateBlockFullName b ∈ newResources)))
               blocks,
     (n + length (List.filter
                    (fun b => negb (bool_decide (generateBlockFullName b ∈ newResources)))
                    blocks))%nat).
Proof.
  revert kept n. induction blocks as [|b blocks IH]; intros kept n; simpl.
  - now rewrite app_nil_r, Nat.add_0_r.
  - destruct (bool_decide _); simpl; rewrite IH; [reflexivity|].
    rewrite <- app_assoc. simpl. f_equal. lia.
Qed.

Lemma filter_ext_in_set prior (names : list string) :
  List.filter (fun b => negb (bool_decide (generateBlockFullName b
                                           ∈ (list_to_set names ∪ ∅ : gset string)))) prior
  = List.filter (fun b => negb (bool_decide (generateBlockFullName b ∈ names))) prior.
Proof.
  apply List.filter_ext. intros b. f_equal. apply bool_decide_ext. set_solver.
Qed.

(** The writer, in the words of the specification: when the file can be
    created it is left with the merged pieces, and removed when there are
    none. *)
Lemma handleResourceWrite_merged ic os ch :
  os_CreateOk os = true ->
  out_file (handleResourceWrite ic os ch) =
  match merged_pieces (incremental ic) (prior_blocks ic os) (generated_of ch) with
  | [] => FileRemoved
  | pieces => FileHolds pieces
  end.
Proof.
  intros Hcreate. unfold handleResourceWrite. rewrite Hcreate. cbn [negb].
  fold (prior_blocks ic os).
  destruct (write_generated_spec ch [] ∅ [] (waitGroup ic)) as (im & w & ->).
  cbn [app]. unfold merged_pieces.
  set (fs := generated_of ch).
  assert (Hsize : size (list_to_set (List.map BlockName fs) ∪ ∅ : gset string) = 0%nat
                  <-> fs = []).
  { rewrite size_empty_iff. split.
    - intros He. destruct fs as [|f fs]; [reflexivity|]. exfalso.
      assert (Hin : BlockName f ∈ (list_to_set (List.map BlockName (f :: fs)) ∪ ∅ : gset string))
        by (simpl; set_solver).
      rewrite He in Hin. set_solver.
    - intros ->. set_solver. }
  destruct (incremental ic).
  - rewrite merge_existing_spec. cbn [app out_file]. rewrite filter_ext_in_set.
    set (kept := List.filter _ (prior_blocks ic os)).
    destruct fs as [|f fs].
    + cbn [List.map app]. replace (size _) with 0%nat by (symmetry; now apply Hsize).
      destruct kept; reflexivity.
    + destruct (size _ + length kept =? 0)%nat eqn:E; [|reflexivity].
      apply Nat.eqb_eq in E.
      assert (Hz : size (list_to_set (List.map BlockName (f :: fs)) ∪ ∅ : gset string) = 0%nat)
        by lia.
      apply Hsize in Hz. discriminate.
  - cbn [out_file]. rewrite app_nil_r.
    destruct fs as [|f fs].
    + replace (size _) with 0%nat by (symmetry; now apply Hsize). reflexivity.
    + destruct (size _ =? 0)%nat eqn:E; [|reflexivity].
      apply Nat.eqb_eq, Hsize in E. discriminate.
Qed.

(** C2. On an incremental run over a prior file with the blocks [A] and
    [B], in which [B] and a new [C] are generated, the file is left with
    the generated [B] and [C] followed by the prior [A]; the prior [B] is
    not in it.  In general the file holds the generated pieces followed by
    the prior blocks that were not generated anew, and it is removed when
    that leaves no block at all. *)
Theorem handleResourceWrite_merge :
  (forall ic A B newB newC,
     incremental ic = true ->
     BlockName newB = generateBlockFullName B ->
     generateBlockFullName A <> BlockName newB ->
     generateBlockFullName A <> BlockName newC ->
     out_file (handleResourceWrite ic {| os_ReadParse := Some [ A; B ]; os_CreateOk := true |}
                 [ Some newB; Some newC ])
     = FileHolds [ Generated newB; Generated newC; Existing A ])
  /\ (forall ic os ch,
        os_CreateOk os = true ->
        out_file (handleResourceWrite ic os ch) =
        match merged_pieces (incremental ic) (prior_blocks ic os) (generated_of ch) with
        | [] => FileRemoved
        | pieces => FileHolds pieces
        end).
Proof.
  split; [|exact handleResourceWrite_merged].
  intros ic A B newB newC Hincr HB HA1 HA2.
  rewrite handleResourceWrite_merged by reflexivity.
  unfold prior_blocks, merged_pieces, generated_of. rewrite Hincr.
  cbn [os_ReadParse omap list_omap id List.map List.filter app].
  rewrite (bool_decide_eq_false_2 (generateBlockFullName A ∈ [BlockName newB; BlockName newC]))
    by set_solver.
  rewrite (bool_decide_eq_true_2 (generateBlockFullName B ∈ [BlockName newB; BlockName newC]))
    by (rewrite HB; set_solver).
  reflexivity.
Qed.

Lemma handleResourceWrite_merge_witness :
  out_file (handleResourceWrite (set_incremental true fresh_context)
              {| os_ReadParse := Some [ pipeline_block "abc" "old abc";
                                        pipeline_block "def" "old def" ];
                 os_CreateOk := true |}
              [ Some (pipeline_data "def" "new def"); Some (pipeline_data "ghi" "new ghi") ])
  = FileHolds [ Generated (pipeline_data "def" "new def");
                Generated (pipeline_data "ghi" "new ghi");
                Existing (pipeline_block "abc" "old abc") ]
  /\ out_file (handleResourceWrite (set_incremental true fresh_context)
                 {| os_ReadParse := Some []; os_CreateOk := true |} [ None ])
     = FileRemoved.
Proof.
  destruct handleResourceWrite_merge as [Hscenario Hgeneral]. split.
  - apply Hscenario; [reflexivity | reflexivity | vm_compute; discriminate
                     | vm_compute; discriminate].
  - rewrite Hgeneral by reflexivity. reflexivity.
Defined.

(** ** The phases of [Run] *)

(** The set-up writes no file: at most it makes the directory. *)
Lemma Run_setup_effects os ic :
  Forall (fun e => writes_file e = false) (run_effects (Run_setup os ic)).
Proof.
  unfold Run_setup, failed.
  repeat case_match; cbn [run_effects]; simplify_eq; repeat constructor.
Qed.

(** With a scope that is not empty and an import script that can be
    opened, [Run] writes the import script. *)
Lemma Run_write_import_script os effects ic :
  run_openImportError os = None ->
  WriteFile (Directory ic +:+ "/import.sh") ∈ run_effects (Run_write os effects ic).
Proof.
  intros Hopen. unfold Run_write, failed. rewrite Hopen.
  set (ic' := if incremental ic then _ else ic).
  assert (Hdir : Directory ic' = Directory ic).
  { subst ic'. destruct (incremental ic); [|reflexivity].
    destruct (run_importLines os); reflexivity. }
  rewrite Hdir. clearbody ic'.
  repeat case_match; cbn [run_effects]; simplify_eq;
    rewrite ?list_elem_of_app; set_solver.
Qed.

Example Run_busy_world :
  run_error (Run busy_world sample_context) = None
  /\ run_effects (Run busy_world sample_context)
     = [ MkdirAll EmptyString; WriteFile "/import.sh"; WriteFile "/compute.tf";
         WriteFile "/exporter-run-stats.json"; WriteFile "/ignored_resources.txt" ].
Proof. split; vm_compute; reflexivity. Qed.

(** C5. For every run that gets past the set-up and in which the scope is
    empty once the listing is over, [Run] returns the error "no resources
    to import" and does nothing on disk beyond what the set-up did (which
    is at most to make the directory): it writes no configuration file,
    no import script and no variables file. *)
Theorem Run_no_resources (os : RunOS) (ic : importContext) :
  run_error (Run_setup os ic) = None ->
  Scope (run_listing os (run_context (Run_setup os ic))) = [] ->
  run_error (Run os ic) = Some "no resources to import"
  /\ run_effects (Run os ic) = run_effects (Run_setup os ic)
  /\ Forall (fun e => writes_file e = false) (run_effects (Run os ic)).
Proof.
  intros Hsetup Hscope.
  assert (HRun : Run os ic
                 = failed "no resources to import" (run_effects (Run_setup os ic))
                     (run_listing os (run_context (Run_setup os ic)))).
  { unfold Run. rewrite Hsetup. cbn zeta. now rewrite Hscope. }
  rewrite HRun. cbn [failed run_error run_effects].
  split; [reflexivity|]. split; [reflexivity|]. apply Run_setup_effects.
Qed.

Lemma Run_no_resources_witness :
  run_error (Run quiet_world sample_context) = Some "no resources to import"
  /\ run_effects (Run quiet_world sample_context) = [ MkdirAll EmptyString ].
Proof.
  destruct (Run_no_resources quiet_world sample_context) as (Herr & Heff & _);
    [reflexivity | reflexivity |].
  split; [exact Herr|]. rewrite Heff. reflexivity.
Defined.
